(** * Commute catchment: the isochrone route and the area matcher

    A shallow embedding of [src/app/api/isochrone/route.ts] (cache key,
    travel-time clamp, TTL cache around the outbound call) and of the
    matching effect of [src/app/page.tsx] (bounding-box prefilter,
    centroid test, de-duplication and ordering), with the properties the
    specification states about them. *)

From Stdlib Require Import ZArith List Bool Lia String Ascii QArith Qround Qabs Sorted DecimalString.
From Stdlib Require Import SpecFloat.
From Stdlib Require DecimalN DecimalPos.
From stdpp Require Import gmap strings.

Local Open Scope Z_scope.

(** ** JavaScript numbers

    A JS number is an IEEE-754 binary64 value.  [spec_float] is the Standard
    Library's specification of such values; the operations below are the
    ones of the library at precision 53 and maximal exponent 1024. *)
Module JSNumber.

Definition number := spec_float.

Definition prec : Z := 53.
Definition emax : Z := 1024.

Definition ltb (x y : number) : bool := SFltb x y.   (* x < y *)
Definition gtb (x y : number) : bool := SFltb y x.   (* x > y *)
Definition leb (x y : number) : bool := SFleb x y.   (* x <= y *)
Definition mul (x y : number) : number := SFmul prec emax x y.

(** The number with a given integer value (exact below 2^53). *)
Definition of_Z (z : Z) : number := binary_normalize prec emax z 0 false.

Definition is_nan (x : number) : bool :=
  match x with S754_nan => true | _ => false end.

Definition is_negative (x : number) : bool :=
  match x with
  | S754_zero s | S754_infinity s | S754_finite s _ _ => s
  | S754_nan => false
  end.

(** [Number.isFinite] on a value that is a number. *)
Definition Number_isFinite (x : number) : bool :=
  match x with
  | S754_zero _ | S754_finite _ _ _ => true
  | S754_infinity _ | S754_nan => false
  end.

(** [Math.round]: the integer closest to [x], ties toward +∞; zeros,
    infinities, NaN and integers are returned as they are, and a result in
    (-1, 1) keeps the sign of [x]. *)
Definition Math_round (x : number) : number :=
  match x with
  | S754_finite s m e =>
      if 0 <=? e then x
      else
        let n := cond_Zopp s (Zpos m) in
        let r := (2 * n + 2 ^ (- e)) / 2 ^ (1 - e) in
        if r =? 0 then S754_zero s else of_Z r
  | _ => x
  end.

(** [Math.min] and [Math.max]: NaN if either argument is NaN; -0 is below +0. *)
Definition Math_min (x y : number) : number :=
  if is_nan x || is_nan y then S754_nan
  else if ltb y x then y
  else if ltb x y then x
  else if is_negative x then x else y.

Definition Math_max (x y : number) : number :=
  if is_nan x || is_nan y then S754_nan
  else if ltb x y then y
  else if ltb y x then x
  else if is_negative x then y else x.

End JSNumber.

(** ** JavaScript strings

    Strings are sequences of code units; the embedding keeps the code units
    below 256, which is where every character the program inspects lives
    (digits, [_], [|], the white space removed by [trim]). *)
Module JSString.
Import JSNumber.

(** The ECMAScript WhiteSpace and LineTerminator code units below 256:
    TAB, LF, VT, FF, CR, SP and NBSP. *)
Definition is_white_space (c : ascii) : bool :=
  let n := N_of_ascii c in
  ((9 <=? n) && (n <=? 13) || (n =? 32) || (n =? 160))%N.

Fixpoint trimStart (s : string) : string :=
  match s with
  | String c s' => if is_white_space c then trimStart s' else s
  | EmptyString => EmptyString
  end.

Definition trimEnd (s : string) : string := String.rev (trimStart (String.rev s)).

Definition trim (s : string) : string := trimEnd (trimStart s).

(** [s.replaceAll(a, b)] for one-character [a] and [b]. *)
Fixpoint replaceAll (a b : ascii) (s : string) : string :=
  match s with
  | String c s' => String (if Ascii.eqb c a then b else c) (replaceAll a b s')
  | EmptyString => EmptyString
  end.

(** [s.includes(sub)] *)
Definition includes (sub s : string) : bool :=
  match String.index 0 sub s with Some _ => true | None => false end.

(** [s.slice(0, n)] for a non-negative [n]. *)
Definition slice0 (n : nat) (s : string) : string := String.substring 0 n s.

(** A string is truthy when it is not empty. *)
Definition truthy (s : string) : bool :=
  match s with EmptyString => false | _ => true end.

Definition digits (n : N) : string := NilZero.string_of_uint (N.to_uint n).

Fixpoint zeros (n : nat) : string :=
  match n with O => EmptyString | S n' => String "0" (zeros n') end.

(** *** [Number.prototype.toFixed(5)] *)

(** [x >= 10^21] for [x = m * 2^e]. *)
Definition ge_1e21 (m : positive) (e : Z) : bool :=
  if 0 <=? e then 10 ^ 21 <=? Zpos m * 2 ^ e
  else 10 ^ 21 * 2 ^ (- e) <=? Zpos m.

(** The integer [n] for which [n / 10^5 - x] is closest to zero, the larger
    one when there are two, for [x = m * 2^e]. *)
Definition scaled_round (m : positive) (e : Z) : Z :=
  if 0 <=? e then Zpos m * 2 ^ e * 10 ^ 5
  else (2 * (Zpos m * 10 ^ 5) + 2 ^ (- e)) / 2 ^ (1 - e).

(** Steps 9.b to 9.c of the algorithm: the digits of [n], padded on the left
    to six characters, with a point before the last five. *)
Definition fixed_digits (n : Z) : string :=
  let m := digits (Z.to_N n) in
  let k := String.length m in
  let m' := if (k <=? 5)%nat then String.append (zeros (6 - k)) m else m in
  let k' := String.length m' in
  String.append (String.substring 0 (k' - 5) m')
    (String.append "." (String.substring (k' - 5) 5 m')).

Section NumberToString.
(** [Number::toString] prints the shortest decimal that reads back as the
    same number.  For an integral value of magnitude at most 2^53 that is
    its decimal digits, every integer of that range being a number of its
    own.  The rendering of the other finite values (fractions, and the
    integral values above 2^53, whose digits past the shortest ones are
    printed as zeros or in exponent form) is left as a parameter. *)
Variable toString_other : number -> string.

(** The value of a finite number when it is an integer. *)
Definition integer_value (x : number) : option Z :=
  match x with
  | S754_zero _ => Some 0
  | S754_finite s m e =>
      if 0 <=? e then Some (cond_Zopp s (Zpos m * 2 ^ e))
      else if Zpos m mod 2 ^ (- e) =? 0
           then Some (cond_Zopp s (Zpos m / 2 ^ (- e)))
           else None
  | _ => None
  end.

Definition Number_toString (x : number) : string :=
  match x with
  | S754_nan => "NaN"
  | S754_infinity s => if s then "-Infinity" else "Infinity"
  | S754_zero _ => "0"
  | S754_finite s _ _ =>
      match integer_value x with
      | Some z =>
          if Z.abs z <=? 2 ^ 53
          then String.append (if s then "-" else "") (digits (Z.abs_N z))
          else toString_other x
      | None => toString_other x
      end
  end.

Definition toFixed5 (x : number) : string :=
  match x with
  | S754_nan | S754_infinity _ => Number_toString x
  | S754_zero _ => fixed_digits 0
  | S754_finite s m e =>
      String.append (if s then "-" else "")
        (if ge_1e21 m e then Number_toString (S754_finite false m e)
         else fixed_digits (scaled_round m e))
  end.
End NumberToString.

End JSString.

(** ** The isochrone route: [src/app/api/isochrone/route.ts] *)
Module Route.
Import JSNumber JSString.

(** A value found in a field of the parsed request body, as far as the
    validation distinguishes values. *)
Inductive jsvalue :=
  | VNumber (x : number)
  | VString (s : string)
  | VOther.                      (* undefined, null, booleans, objects *)

Record RawBody := {
  raw_lat : jsvalue;
  raw_lng : jsvalue;
  raw_arriveByISO : jsvalue;
  raw_minutes : jsvalue;
  raw_mode : jsvalue
}.

(** What [await req.json()] gives: it throws, or yields [null] (and other
    values without fields), or an object. *)
Inductive RequestJson :=
  | JsonRejects
  | JsonNull
  | JsonObject (b : RawBody).

Record IsochroneRequest := {
  lat : number;
  lng : number;
  arriveByISO : string;
  minutes : number;
  mode : string
}.

(** The "Basic validation" of [POST]: [Number.isFinite] on the three numbers
    and [typeof ... === "string"] on the two strings. *)
Definition validate (b : RawBody) : option IsochroneRequest :=
  match raw_lat b, raw_lng b, raw_arriveByISO b, raw_minutes b, raw_mode b with
  | VNumber la, VNumber ln, VString a, VNumber mi, VString mo =>
      if Number_isFinite la && Number_isFinite ln && Number_isFinite mi
      then Some {| lat := la; lng := ln; arriveByISO := a; minutes := mi; mode := mo |}
      else None
  | _, _, _, _, _ => None
  end.

Record Env := {
  TRAVELTIME_APP_ID : option string;
  TRAVELTIME_API_KEY : option string
}.

(** [!v] for an environment variable. *)
Definition missing (v : option string) : bool :=
  match v with Some s => negb (truthy s) | None => true end.

Definition travelTimeSeconds (minutes : number) : number :=
  Math_max (of_Z 60) (Math_min (Math_round (mul minutes (of_Z 60))) (of_Z 10800)).

Record Payload := {
  id : string;
  coords_lat : number;
  coords_lng : number;
  transportation_type : string;
  arrival_time_period : string;
  travel_time : number
}.

Definition payload (body : IsochroneRequest) : Payload :=
  {| id := "isochrone_1";
     coords_lat := lat body;
     coords_lng := lng body;
     transportation_type := mode body;
     arrival_time_period := "weekday_morning";
     travel_time := travelTimeSeconds (minutes body) |}.

(** The response of the outbound [fetch], read with [resp.text()].
    [FetchRejects] stands for a rejected [fetch] or [text()] promise. *)
Record FetchResponse := {
  ok : bool;
  resp_status : Z;
  content_type : option string;      (* resp.headers.get("content-type") *)
  text : string
}.

Inductive FetchOutcome :=
  | FetchRejects
  | FetchResolves (r : FetchResponse).

Section Post.
(** The rendering by [Number::toString] of the numbers that are not
    integers of magnitude at most 2^53. *)
Variable toString_other : number -> string.
(** Parsed JSON documents, and [JSON.parse] ([None] when it throws). *)
Variable json : Type.
Variable JSON_parse : string -> option json.

Definition cacheKey (body : IsochroneRequest) : string :=
  String.append (toFixed5 toString_other (lat body))
    (String.append ","
      (String.append (toFixed5 toString_other (lng body))
        (String.append "|"
          (String.append (arriveByISO body)
            (String.append "|"
              (String.append (Number_toString toString_other (minutes body))
                (String.append "|" (mode body)))))))).

(** [geojson: any] is the parsed document or, when the content type does
    not mention JSON, the text itself. *)
Inductive any :=
  | Parsed (j : json)
  | Text (s : string).

Record CacheEntry := { expiresAt : Z; geojson : any }.

Record Upstream := { up_status : Z; up_contentType : string; up_detail : string }.

Inductive ResponseBody :=
  | ErrorBody (error : string) (upstream : option Upstream)
  | DataBody (data : any).

Record Response := { status : Z; body : ResponseBody }.

(** [hit && hit.expiresAt > now] *)
Definition fresh (hit : option CacheEntry) (now : Z) : option any :=
  match hit with
  | Some h => if expiresAt h >? now then Some (geojson h) else None
  | None => None
  end.

Definition parse_body (contentType text : string) : option any :=
  if includes "json" contentType
  then option_map Parsed (JSON_parse text)
  else Some (Text text).

(** The part of [POST] after validation and the environment check.  The
    result is the response, the cache afterwards and the outbound calls
    made, in order. *)
Definition lookup_or_fetch (body : IsochroneRequest) (now : Z)
    (net : Payload -> FetchOutcome) (cache : gmap string CacheEntry)
  : Response * gmap string CacheEntry * list Payload :=
  let key := cacheKey body in
  match fresh (cache !! key) now with
  | Some g => ({| status := 200; body := DataBody g |}, cache, [])
  | None =>
      let p := payload body in
      match net p with
      | FetchRejects =>
          ({| status := 500; body := ErrorBody "Isochrone route crashed" None |},
           cache, [p])
      | FetchResolves resp =>
          let contentType := default EmptyString (content_type resp) in
          let up := {| up_status := resp_status resp;
                       up_contentType := contentType;
                       up_detail := slice0 2000 (text resp) |} in
          if negb (ok resp) then
            ({| status := 502; body := ErrorBody "TravelTime request failed" (Some up) |},
             cache, [p])
          else
            match parse_body contentType (text resp) with
            | None =>
                ({| status := 502;
                    body := ErrorBody "TravelTime returned non-JSON response" (Some up) |},
                 cache, [p])
            | Some g =>
                ({| status := 200; body := DataBody g |},
                 <[key := {| expiresAt := now + 10 * 60 * 1000; geojson := g |}]> cache,
                 [p])
            end
      end
  end.

Definition POST (req : RequestJson) (env : Env) (now : Z)
    (net : Payload -> FetchOutcome) (cache : gmap string CacheEntry)
  : Response * gmap string CacheEntry * list Payload :=
  match req with
  | JsonRejects =>
      ({| status := 500; body := ErrorBody "Isochrone route crashed" None |}, cache, [])
  | JsonNull =>
      ({| status := 400; body := ErrorBody "Invalid request body" None |}, cache, [])
  | JsonObject raw =>
      match validate raw with
      | None =>
          ({| status := 400; body := ErrorBody "Invalid request body" None |}, cache, [])
      | Some body =>
          if missing (TRAVELTIME_APP_ID env) || missing (TRAVELTIME_API_KEY env) then
            ({| status := 500;
                body := ErrorBody "Missing env vars TRAVELTIME_APP_ID / TRAVELTIME_API_KEY" None |},
             cache, [])
          else lookup_or_fetch body now net cache
      end
  end.

(** The four ways a lookup-or-fetch can end, as a relation between the
    inputs and the triple returned. *)
Inductive outcome (b : IsochroneRequest) (now : Z) (net : Payload -> FetchOutcome)
    (cache : gmap string CacheEntry)
  : Response * gmap string CacheEntry * list Payload -> Prop :=
  | served_from_cache h :
      cache !! cacheKey b = Some h -> now < expiresAt h ->
      outcome b now net cache
        ({| status := 200; body := DataBody (geojson h) |}, cache, [])
  | fetch_rejected :
      fresh (cache !! cacheKey b) now = None ->
      net (payload b) = FetchRejects ->
      outcome b now net cache
        ({| status := 500; body := ErrorBody "Isochrone route crashed" None |},
         cache, [payload b])
  | fetch_failed resp msg up :
      fresh (cache !! cacheKey b) now = None ->
      net (payload b) = FetchResolves resp ->
      ok resp = false \/
      parse_body (default EmptyString (content_type resp)) (text resp) = None ->
      outcome b now net cache
        ({| status := 502; body := ErrorBody msg (Some up) |}, cache, [payload b])
  | fetch_stored resp g :
      fresh (cache !! cacheKey b) now = None ->
      net (payload b) = FetchResolves resp ->
      ok resp = true ->
      parse_body (default EmptyString (content_type resp)) (text resp) = Some g ->
      outcome b now net cache
        ({| status := 200; body := DataBody g |},
         <[cacheKey b := {| expiresAt := now + 10 * 60 * 1000; geojson := g |}]> cache,
         [payload b]).

End Post.

Arguments Parsed {json} j.
Arguments Text {json} s.
Arguments ErrorBody {json} error upstream.
Arguments DataBody {json} data.
Arguments expiresAt {json} c.
Arguments geojson {json} c.
Arguments status {json} r.
Arguments body {json} r.
Arguments fresh {json} hit now.

(** *** Rounding cells of [toFixed(5)]

    The exact magnitude and sign of a finite number, and the two ways of
    saying that two coordinates agree at the precision of the cache key. *)
Definition magnitude (x : number) : Q :=
  match x with
  | S754_finite _ m e =>
      if 0 <=? e then inject_Z (Zpos m * 2 ^ e) else Zpos m # Z.to_pos (2 ^ (- e))
  | _ => 0%Q
  end.

(** [x < 0] for a finite [x]; false for both zeros. *)
Definition below_zero (x : number) : bool :=
  match x with
  | S754_finite s _ _ => s
  | _ => false
  end.

Definition value (x : number) : Q :=
  if below_zero x then (- magnitude x)%Q else magnitude x.

(** [k] is the integer nearest to [|x| * 10^5], the larger one on a tie, and
    [|x|] is below 10^21. *)
Definition rounds_to (x : number) (k : Z) : Prop :=
  Number_isFinite x = true /\
  (magnitude x < inject_Z (10 ^ 21))%Q /\
  (inject_Z k - (1 # 2) <= magnitude x * inject_Z (10 ^ 5))%Q /\
  (magnitude x * inject_Z (10 ^ 5) < inject_Z k + (1 # 2))%Q.

(** Two coordinates that round to the same multiple of 10^-5, sign included. *)
Definition same_rounding (x y : number) : Prop :=
  below_zero x = below_zero y /\ exists k, rounds_to x k /\ rounds_to y k.

(** Two coordinates that differ only beyond the fifth decimal: same sign,
    same digits up to the fifth decimal, and less than 10^-5 apart. *)
Definition differ_beyond_precision (x y : number) : Prop :=
  Number_isFinite x = true /\ Number_isFinite y = true /\
  below_zero x = below_zero y /\
  Qfloor (magnitude x * inject_Z (10 ^ 5)) = Qfloor (magnitude y * inject_Z (10 ^ 5)) /\
  (Qabs (value x - value y) * inject_Z (10 ^ 5) < 1)%Q.

End Route.

(** ** The matching effect: [src/app/page.tsx] *)
Module Page.
Import JSNumber JSString.

Record CommunityHit := { name : string; mode : string }.

(** A property value is a string or something else; [f.properties] is an
    object with fields, or [null] (or another non-object). *)
Inductive propvalue :=
  | PString (s : string)
  | POther.

Inductive properties :=
  | NotAnObject
  | Object (fields : gmap string propvalue).

Definition candidates : list string :=
  ["GSA_NAME"; "COMMUNITY"; "COMMUNITY_NAME"; "community_name";
   "NAME"; "name"; "label"; "LABEL"].

(** The [for (const k of candidates)] loop of [pickCommunityName]. *)
Fixpoint firstName (fields : gmap string propvalue) (ks : list string) : option string :=
  match ks with
  | [] => None
  | k :: ks' =>
      match fields !! k with
      | Some (PString v) =>
          if truthy (trim v) then Some (trim v) else firstName fields ks'
      | _ => firstName fields ks'
      end
  end.

Definition pickCommunityName (props : properties) : string :=
  match props with
  | NotAnObject => "Unnamed area"
  | Object fields => default "Unnamed area" (firstName fields candidates)
  end.

(** [turf.bbox] returns [[minLng, minLat, maxLng, maxLat]]. *)
Record BBox := { minLng : number; minLat : number; maxLng : number; maxLat : number }.

(** [!(b[2] < isoBbox[0] || b[0] > isoBbox[2] || b[3] < isoBbox[1] || b[1] > isoBbox[3])] *)
Definition bboxIntersects (b isoBbox : BBox) : bool :=
  negb (ltb (maxLng b) (minLng isoBbox) || gtb (minLng b) (maxLng isoBbox)
        || ltb (maxLat b) (minLat isoBbox) || gtb (minLat b) (maxLat isoBbox)).

(** *** [Map] keyed by name, [Array.from(map.values())] and [sort]

    A [Map] keeps its keys in insertion order; setting a key that is present
    replaces the value and leaves the position. *)
Fixpoint Map_set (k : string) (v : CommunityHit) (m : list (string * CommunityHit))
  : list (string * CommunityHit) :=
  match m with
  | [] => [(k, v)]
  | (k', v') :: m' =>
      if String.eqb k k' then (k', v) :: m' else (k', v') :: Map_set k v m'
  end.

Definition Map_new (entries : list (string * CommunityHit)) : list (string * CommunityHit) :=
  fold_left (fun m kv => Map_set (fst kv) (snd kv) m) entries [].

Definition Map_values (m : list (string * CommunityHit)) : list CommunityHit :=
  map snd m.

Section Sort.
Variable compareFn : CommunityHit -> CommunityHit -> Z.

(** [Array.prototype.sort] is stable; for a consistent comparator its result
    is the sorted list in which elements that compare equal keep their
    order, which is what inserting from the right builds. *)
Fixpoint insert (x : CommunityHit) (l : list CommunityHit) : list CommunityHit :=
  match l with
  | [] => [x]
  | y :: l' => if compareFn x y <=? 0 then x :: l else y :: insert x l'
  end.

Definition sort (l : list CommunityHit) : list CommunityHit := fold_right insert [] l.
End Sort.

Section Matching.
(** Modelled from the spec: the geometry library (turf) is not part of the
    sources.  Its geometries, the point feature [turf.centroid] returns and
    the errors it throws are parameters, and so are its four operations.
    Following section 4.1 of the specification, [turf.combine] and
    [turf.bbox] return a value for every argument (an empty collection, an
    invalid box) rather than raise; [turf.centroid] and
    [turf.booleanPointInPolygon] may throw. *)
Variable Geometry : Type.
Variable Point : Type.
Variable exn : Type.

Record Feature := { geometry : option Geometry; props : properties }.
Record FeatureCollection := { features : option (list Feature) }.

Inductive result (A : Type) :=
  | Ok (a : A)
  | Throw (e : exn).
Arguments Ok {A} a.
Arguments Throw {A} e.

Variable turf_combine : FeatureCollection -> FeatureCollection.
Variable turf_bbox : Feature -> BBox.
Variable turf_centroid : Feature -> result Point.
Variable turf_booleanPointInPolygon : Point -> Feature -> result bool.

(** [String.prototype.localeCompare] *)
Variable localeCompare : string -> string -> Z.

(** Calls into the library, recorded in order. *)
Inductive event :=
  | EvCombine (fc : FeatureCollection)
  | EvBbox (f : Feature)
  | EvCentroid (f : Feature)
  | EvPointInPolygon (c : Point) (region : Feature).

(** Computations that may throw and that record the library calls made. *)
Definition M (A : Type) : Type := list event -> result A * list event.

Definition ret {A} (a : A) : M A := fun log => (Ok a, log).

Definition bind {A B} (m : M A) (k : A -> M B) : M B :=
  fun log =>
    match m log with
    | (Ok a, log') => k a log'
    | (Throw e, log') => (Throw e, log')
    end.

Definition try_catch {A} (m : M A) (handler : exn -> M A) : M A :=
  fun log =>
    match m log with
    | (Ok a, log') => (Ok a, log')
    | (Throw e, log') => handler e log'
    end.

Definition call {A} (ev : event) (r : result A) : M A :=
  fun log => (r, log ++ [ev]).

Notation "'let*' x ':=' m 'in' k" := (bind m (fun x => k))
  (at level 10, x name, k at level 200).

Definition combine (fc : FeatureCollection) : M FeatureCollection :=
  call (EvCombine fc) (Ok (turf_combine fc)).
Definition bbox (f : Feature) : M BBox :=
  call (EvBbox f) (Ok (turf_bbox f)).
Definition centroid (f : Feature) : M Point :=
  call (EvCentroid f) (turf_centroid f).
Definition booleanPointInPolygon (c : Point) (region : Feature) : M bool :=
  call (EvPointInPolygon c region) (turf_booleanPointInPolygon c region).

(** The [try { ... } catch { inside = false; }] block. *)
Definition insideTest (isoFeature f : Feature) : M bool :=
  try_catch (let* c := centroid f in booleanPointInPolygon c isoFeature)
            (fun _ => ret false).

Definition hit (mode : string) (f : Feature) : CommunityHit :=
  {| name := pickCommunityName (props f); mode := replaceAll "_" " " mode |}.

(** The [for (const f of communities.features || [])] loop; [hits] is the
    array pushed to. *)
Fixpoint loop (isoFeature : Feature) (isoBbox : BBox) (mode : string)
    (fs : list Feature) (hits : list CommunityHit) : M (list CommunityHit) :=
  match fs with
  | [] => ret hits
  | f :: fs' =>
      match geometry f with
      | None => loop isoFeature isoBbox mode fs' hits
      | Some _ =>
          let* b := bbox f in
          if negb (bboxIntersects b isoBbox) then loop isoFeature isoBbox mode fs' hits
          else
            let* inside := insideTest isoFeature f in
            if negb inside then loop isoFeature isoBbox mode fs' hits
            else loop isoFeature isoBbox mode fs' (hits ++ [hit mode f])
      end
  end.

(** [Array.from(new Map(hits.map((h) => [h.name, h])).values()).sort(...)] *)
Definition uniq (hits : list CommunityHit) : list CommunityHit :=
  sort (fun a b => localeCompare (name a) (name b))
       (Map_values (Map_new (map (fun h => (name h, h)) hits))).

(** The effect that computes the areas within the commute; its result is
    the list passed to [setWithin]. *)
Definition computeWithin (isochrone communities : option FeatureCollection)
    (mode : string) : M (list CommunityHit) :=
  match isochrone, communities with
  | Some iso, Some comm =>
      let* combined := combine iso in
      match head (default [] (features combined)) with
      | None => ret []
      | Some isoFeature =>
          let* isoBbox := bbox isoFeature in
          let* hits := loop isoFeature isoBbox mode (default [] (features comm)) [] in
          ret (uniq hits)
      end
  | _, _ => ret []
  end.

(** *** What the loop decides, as a predicate

    A candidate is matched when it has a geometry, its box passes the
    prefilter, and the centroid test returns [true] without throwing. *)
Definition inside (isoFeature f : Feature) : bool :=
  match turf_centroid f with
  | Ok c =>
      match turf_booleanPointInPolygon c isoFeature with
      | Ok b => b
      | Throw _ => false
      end
  | Throw _ => false
  end.

Definition prefilter (isoBbox : BBox) (f : Feature) : bool :=
  match geometry f with
  | Some _ => bboxIntersects (turf_bbox f) isoBbox
  | None => false
  end.

Definition matched (isoFeature : Feature) (isoBbox : BBox) (f : Feature) : bool :=
  prefilter isoBbox f && inside isoFeature f.

(** The centroid test of [f] throws, in [turf.centroid] or in
    [turf.booleanPointInPolygon]. *)
Definition insideThrows (isoFeature f : Feature) : Prop :=
  (exists e, turf_centroid f = Throw e) \/
  (exists c e, turf_centroid f = Ok c /\
               turf_booleanPointInPolygon c isoFeature = Throw e).

(** The library calls the loop makes for one candidate, and for all. *)
Definition candidateEvents (isoFeature : Feature) (isoBbox : BBox) (f : Feature)
  : list event :=
  match geometry f with
  | None => []
  | Some _ =>
      EvBbox f ::
      (if bboxIntersects (turf_bbox f) isoBbox then
         EvCentroid f ::
         match turf_centroid f with
         | Ok c => [EvPointInPolygon c isoFeature]
         | Throw _ => []
         end
       else [])
  end.

Definition loopEvents (isoFeature : Feature) (isoBbox : BBox) (fs : list Feature)
  : list event :=
  flat_map (candidateEvents isoFeature isoBbox) fs.

(** The combined catchment feature, [combined.features?.[0]]. *)
Definition isoFeatureOf (iso : FeatureCollection) : option Feature :=
  head (default [] (features (turf_combine iso))).

(** The matched candidates of a run, in the order of the collection. *)
Definition matchedCandidates (isochrone communities : option FeatureCollection)
  : list Feature :=
  match isochrone, communities with
  | Some iso, Some comm =>
      match isoFeatureOf iso with
      | Some isoFeature =>
          List.filter (matched isoFeature (turf_bbox isoFeature))
            (default [] (features comm))
      | None => []
      end
  | _, _ => []
  end.

(** The library calls of a run. *)
Definition runEvents (isochrone communities : option FeatureCollection) : list event :=
  match isochrone, communities with
  | Some iso, Some comm =>
      EvCombine iso ::
      match isoFeatureOf iso with
      | Some isoFeature =>
          EvBbox isoFeature ::
          loopEvents isoFeature (turf_bbox isoFeature) (default [] (features comm))
      | None => []
      end
  | _, _ => []
  end.

End Matching.

Arguments Ok {exn A} a.
Arguments Throw {exn A} e.
Arguments geometry {Geometry} f.
Arguments props {Geometry} f.
Arguments features {Geometry} f.
Arguments Build_Feature {Geometry} geometry props.
Arguments Build_FeatureCollection {Geometry} features.
Arguments hit {Geometry} mode f.
Arguments EvCombine {Geometry Point} fc.
Arguments EvBbox {Geometry Point} f.
Arguments EvCentroid {Geometry Point} f.
Arguments EvPointInPolygon {Geometry Point} c region.


(** The point [(x, y)] lies in the box [b], edges included. *)
Definition inBox (x y : number) (b : BBox) : Prop :=
  leb (minLng b) x = true /\ leb x (maxLng b) = true /\
  leb (minLat b) y = true /\ leb y (maxLat b) = true.

(** One box is entirely to one side of the other on some axis. *)
Definition apart (a b : BBox) : Prop :=
  ltb (maxLng a) (minLng b) = true \/ gtb (minLng a) (maxLng b) = true \/
  ltb (maxLat a) (minLat b) = true \/ gtb (minLat a) (maxLat b) = true.

End Page.

(** ** Sample inputs used by the examples *)
Module Samples.
Import JSNumber JSString Route.

(** The examples only print small integers; the other rendering is unused. *)
Definition no_fraction (x : number) : string := "".

(** A stand-in for [JSON.parse]: documents are kept as text, and a text is
    accepted when it starts with an opening brace. *)
Definition parse_object (s : string) : option string :=
  match s with
  | String "{" _ => Some s
  | _ => None
  end.

Definition env : Env :=
  {| TRAVELTIME_APP_ID := Some "app"; TRAVELTIME_API_KEY := Some "key" |}.

(** Dalhousie University, 30 minutes by public transport; the coordinates
    are the doubles nearest to 44.6367 and -63.5952. *)
Definition dalhousie (mins : Z) : IsochroneRequest :=
  {| lat := SFdiv prec emax (of_Z 446367) (of_Z 10000);
     lng := SFdiv prec emax (of_Z (-635952)) (of_Z 10000);
     arriveByISO := "2026-01-05T08:30:00-04:00";
     minutes := of_Z mins;
     mode := "public_transport" |}.

Definition raw (b : IsochroneRequest) : RawBody :=
  {| raw_lat := VNumber (lat b);
     raw_lng := VNumber (lng b);
     raw_arriveByISO := VString (arriveByISO b);
     raw_minutes := VNumber (minutes b);
     raw_mode := VString (mode b) |}.

Definition geo_response : FetchResponse :=
  {| ok := true; resp_status := 200;
     content_type := Some "application/geo+json";
     text := "{}" |}.

Definition quota_response : FetchResponse :=
  {| ok := false; resp_status := 429;
     content_type := Some "application/json";
     text := "{}" |}.

Definition plain_response : FetchResponse :=
  {| ok := true; resp_status := 200;
     content_type := Some "text/plain"; text := "busy" |}.

Definition net_ok (p : Payload) : FetchOutcome := FetchResolves geo_response.
Definition net_quota (p : Payload) : FetchOutcome := FetchResolves quota_response.

(** Two clicks less than four millionths of a degree apart: the doubles 2^-18
    (0.0000038...) and 2^-17 (0.0000076...). *)
Definition click_a : number := S754_finite false (2 ^ 52) (-70).
Definition click_b : number := S754_finite false (2 ^ 52) (-69).

Definition at_latitude (la : number) : IsochroneRequest :=
  {| lat := la;
     lng := lng (dalhousie 30);
     arriveByISO := "2026-01-05T08:30:00-04:00";
     minutes := of_Z 30;
     mode := "public_transport" |}.

Definition cached_entry : CacheEntry string :=
  {| expiresAt := 5000; geojson := Text "cached" |}.

Definition one_entry : gmap string (CacheEntry string) :=
  {[ cacheKey no_fraction (dalhousie 30) := cached_entry ]}.

(** Two neighbouring doubles next to 44.6367. *)
Definition click_c : number := S754_finite false 6282057046470269 (-47).
Definition click_d : number := S754_finite false 6282057046470270 (-47).

End Samples.

Module PageSamples.
Import JSNumber JSString Page.

(** A small geometry library for the examples.  A geometry is a rectangle
    with, possibly, a centre; the centroid of a feature is that centre (and
    the call throws when there is none), containment is membership in the
    rectangle of the region, and combining keeps the first feature. *)
Record Rect := { box : BBox; centre : option (number * number) }.

Definition rectCombine (fc : FeatureCollection Rect) : FeatureCollection Rect :=
  {| features := Some (take 1 (default [] (features fc))) |}.

Definition emptyBox : BBox :=
  {| minLng := S754_infinity false; minLat := S754_infinity false;
     maxLng := S754_infinity true; maxLat := S754_infinity true |}.

Definition rectBbox (f : Feature Rect) : BBox :=
  match geometry f with Some r => box r | None => emptyBox end.

Definition rectCentroid (f : Feature Rect) : result string (number * number) :=
  match geometry f with
  | Some r => match centre r with Some c => Ok c | None => Throw "no centre" end
  | None => Throw "no geometry"
  end.

Definition rectContains (c : number * number) (region : Feature Rect) : result string bool :=
  match geometry region with
  | Some r =>
      Ok (leb (minLng (box r)) (fst c) && leb (fst c) (maxLng (box r))
          && leb (minLat (box r)) (snd c) && leb (snd c) (maxLat (box r)))
  | None => Throw "no region"
  end.

(** Comparison by code units, as a stand-in for [localeCompare]. *)
Definition codeUnitCompare (a b : string) : Z :=
  match String.compare a b with Lt => -1 | Eq => 0 | Gt => 1 end.

Definition square (lo hi : Z) : BBox :=
  {| minLng := of_Z lo; minLat := of_Z lo; maxLng := of_Z hi; maxLat := of_Z hi |}.

Definition area (key nm : string) (lo hi : Z) (c : option Z) : Feature Rect :=
  {| geometry := Some {| box := square lo hi;
                         centre := option_map (fun z => (of_Z z, of_Z z)) c |};
     props := Object {[ key := PString nm ]} |}.

Definition catchment : FeatureCollection Rect :=
  {| features := Some [ {| geometry := Some {| box := square 0 10; centre := None |};
                           props := NotAnObject |} ] |}.

Definition halifax : Feature Rect := area "GSA_NAME" "Halifax" 1 3 (Some 2).
Definition bedford : Feature Rect := area "COMMUNITY" "Bedford" 20 22 (Some 21).
Definition halifax_again : Feature Rect := area "NAME" " Halifax " 4 6 (Some 5).
Definition dartmouth : Feature Rect := area "name" "Dartmouth" 8 12 None.
Definition armdale : Feature Rect := area "label" "Armdale" 6 8 (Some 7).
Definition nowhere : Feature Rect := {| geometry := None; props := NotAnObject |}.

Definition communities : FeatureCollection Rect :=
  {| features := Some [halifax; bedford; halifax_again; dartmouth; nowhere; armdale] |}.

Definition run (iso comm : option (FeatureCollection Rect)) (mode : string) :=
  computeWithin Rect (number * number) string rectCombine rectBbox rectCentroid
    rectContains codeUnitCompare iso comm mode [].

End PageSamples.

(** ** The checks of the route, field by field *)
Module RouteChecks.
Import JSNumber JSString Route.

(** [Number.isFinite(v)] on any value. *)
Definition isFiniteNumber (v : jsvalue) : bool :=
  match v with VNumber x => Number_isFinite x | _ => false end.

(** [typeof v === "string"] *)
Definition isString (v : jsvalue) : bool :=
  match v with VString _ => true | _ => false end.

(** The negation of the condition that sends the 400 response. *)
Definition acceptable (raw : RawBody) : bool :=
  isFiniteNumber (raw_lat raw) && isFiniteNumber (raw_lng raw) &&
  isString (raw_arriveByISO raw) && isFiniteNumber (raw_minutes raw) &&
  isString (raw_mode raw).

(** Structural equality of numbers, as a test. *)
Definition same_number (x y : number) : bool :=
  match x, y with
  | S754_zero s, S754_zero t => Bool.eqb s t
  | S754_infinity s, S754_infinity t => Bool.eqb s t
  | S754_nan, S754_nan => true
  | S754_finite s m e, S754_finite t n f => Bool.eqb s t && Pos.eqb m n && Z.eqb e f
  | _, _ => false
  end.

(** The whole minutes from [lo] on, [n] of them. *)
Definition whole_minutes (lo : Z) (n : nat) : list Z :=
  map (fun k => lo + Z.of_nat k) (seq 0 n).

(** Every character of [s] passes the test [P]. *)
Fixpoint allChars (P : ascii -> bool) (s : string) : bool :=
  match s with
  | String c s' => P c && allChars P s'
  | EmptyString => true
  end.

Definition isDigit (c : ascii) : bool :=
  let n := N_of_ascii c in ((48 <=? n) && (n <=? 57))%N.

(** The characters [toFixed] writes: digits, the minus sign and the point. *)
Definition isCoordChar (c : ascii) : bool :=
  isDigit c || Ascii.eqb c "-" || Ascii.eqb c ".".

(** The number a string of digits writes, leading zeros allowed. *)
Definition readN (s : string) : option N :=
  option_map N.of_uint (NilEmpty.uint_of_string s).

(** The integer [toFixed(5)] prints for a finite number, point left out. *)
Definition cell (x : number) : Z :=
  match x with
  | S754_finite _ m e => scaled_round m e
  | _ => 0
  end.

(** A body whose latitude came as text. *)
Definition text_latitude : RawBody :=
  {| raw_lat := VString "44.6367";
     raw_lng := VNumber (of_Z (-63));
     raw_arriveByISO := VString "2026-01-05T08:30:00-04:00";
     raw_minutes := VNumber (of_Z 30);
     raw_mode := VString "public_transport" |}.

End RouteChecks.

(** ** Readings of the name lookup and of the run *)
Module PageChecks.
Import JSNumber JSString Page.

(** The name a key contributes: the trimmed string under it, when there is
    a string and it is not blank. *)
Definition usable (fields : gmap string propvalue) (k : string) : option string :=
  match fields !! k with
  | Some (PString v) => if truthy (trim v) then Some (trim v) else None
  | _ => None
  end.

(** The character [c] occurs in [s]. *)
Fixpoint occurs (c : ascii) (s : string) : bool :=
  match s with
  | String c' s' => Ascii.eqb c' c || occurs c s'
  | EmptyString => false
  end.

(** A string that neither starts nor ends with white space. *)
Definition trimmed (s : string) : Prop := trim s = s.

(** A string that is empty or starts with something else than white space. *)
Definition headOK (s : string) : Prop :=
  match s with
  | String c _ => is_white_space c = false
  | EmptyString => True
  end.

Definition isCentroid {Geometry Point : Type} (ev : event Geometry Point) : bool :=
  match ev with EvCentroid _ => true | _ => false end.

Definition hasGeometry {Geometry : Type} (f : Feature Geometry) : bool :=
  match geometry f with Some _ => true | None => false end.

(** A second stand-in for [localeCompare], under which different strings
    may compare as equal: the comparison by code units of the strings
    without their soft hyphens (code unit 173), which a collation leaves
    out of account. *)
Fixpoint withoutSoftHyphen (s : string) : string :=
  match s with
  | String c s' =>
      if (N_of_ascii c =? 173)%N then withoutSoftHyphen s'
      else String c (withoutSoftHyphen s')
  | EmptyString => EmptyString
  end.

Definition hyphenBlindCompare (a b : string) : Z :=
  PageSamples.codeUnitCompare (withoutSoftHyphen a) (withoutSoftHyphen b).

(** "Halifax" written with a soft hyphen after "Hali", and an area of that
    name within the sample catchment. *)
Definition hali_fax_name : string :=
  String.append "Hali" (String (ascii_of_N 173) "fax").

Definition hali_fax : Feature PageSamples.Rect :=
  PageSamples.area "NAME" hali_fax_name 4 6 (Some 5).

(** The sample run with the hyphen-blind comparison. *)
Definition hyphenBlindRun (cs : list (Feature PageSamples.Rect)) (mode : string) :=
  computeWithin PageSamples.Rect (number * number) string PageSamples.rectCombine
    PageSamples.rectBbox PageSamples.rectCentroid PageSamples.rectContains
    hyphenBlindCompare (Some PageSamples.catchment) (Some {| features := Some cs |})
    mode [].

End PageChecks.

(** ** The bounds of a document: [src/components/Map.tsx] *)
Module MapView.
Import JSNumber JSString Page.

(** A parsed JSON document, as [bboxFromGeoJSON] receives it.  [JNull]
    stands for both [null] and [undefined]; the fields of an object are
    looked up in order. *)
#[local] Unset Elimination Schemes.
Inductive json :=
  | JNull
  | JBool (b : bool)
  | JNumber (x : number)
  | JString (s : string)
  | JArray (l : list json)
  | JObject (fields : list (string * json)).
#[local] Set Elimination Schemes.

(** [!v] *)
Definition falsy (v : json) : bool :=
  match v with
  | JNull => true
  | JBool b => negb b
  | JNumber x =>
      match x with S754_zero _ | S754_nan => true | _ => false end
  | JString s => negb (truthy s)
  | JArray _ | JObject _ => false
  end.

Fixpoint field (k : string) (fields : list (string * json)) : json :=
  match fields with
  | [] => JNull
  | (k', v) :: rest => if String.eqb k k' then v else field k rest
  end.

(** [v?.k] for a named property [k] that arrays and strings do not have. *)
Definition prop (k : string) (v : json) : json :=
  match v with
  | JObject fields => field k fields
  | _ => JNull
  end.

(** [v?.[i]] for [i] equal to 0 or 1, written [key] as a property name. *)
Definition item (i : nat) (key : string) (v : json) : json :=
  match v with
  | JArray l => nth i l JNull
  | JObject fields => field key fields
  | JString s =>
      match String.get i s with
      | Some c => JString (String c EmptyString)
      | None => JNull
      end
  | _ => JNull
  end.

(** The four running bounds, [minLng], [minLat], [maxLng], [maxLat]. *)
Definition start : BBox :=
  {| minLng := S754_infinity false; minLat := S754_infinity false;
     maxLng := S754_infinity true; maxLat := S754_infinity true |}.

Definition extend (b : BBox) (lng lat : number) : BBox :=
  {| minLng := Math_min (minLng b) lng;
     minLat := Math_min (minLat b) lat;
     maxLng := Math_max (maxLng b) lng;
     maxLat := Math_max (maxLat b) lat |}.

(** One update of the bounds, by a position. *)
Definition step (acc : BBox) (p : number * number) : BBox := extend acc (fst p) (snd p).

(** The closure [walk], threading the bounds it updates. *)
Fixpoint walk (coords : json) (b : BBox) : BBox :=
  if falsy coords then b
  else
    match item 0 "0" coords, item 1 "1" coords with
    | JNumber lng, JNumber lat => extend b lng lat
    | _, _ =>
        match coords with
        | JArray l => fold_left (fun acc c => walk c acc) l b
        | _ => b
        end
    end.

(** [for (const f of fc.features || [])]: the values iterated, or [None]
    when the value is truthy and not iterable, which throws. *)
Definition iterate (v : json) : option (list json) :=
  if falsy v then Some []
  else
    match v with
    | JArray l => Some l
    | JString s => Some (map (fun c => JString (String c EmptyString))
                             (list_ascii_of_string s))
    | _ => None
    end.

Definition isFinite4 (b : BBox) : bool :=
  Number_isFinite (minLng b) && Number_isFinite (minLat b) &&
  Number_isFinite (maxLng b) && Number_isFinite (maxLat b).

(** The bounds after the walks of the three branches on [fc.type]; [None]
    when iterating the features throws. *)
Definition walked (fc : json) : option BBox :=
  match prop "type" fc with
  | JString "FeatureCollection" =>
      match iterate (prop "features" fc) with
      | Some fs =>
          Some (fold_left (fun acc f => walk (prop "coordinates" (prop "geometry" f)) acc)
                          fs start)
      | None => None
      end
  | JString "Feature" => Some (walk (prop "coordinates" (prop "geometry" fc)) start)
  | _ =>
      if falsy (prop "coordinates" fc) then Some start
      else Some (walk (prop "coordinates" fc) start)
  end.

(** [bboxFromGeoJSON]: the [bbox] member when it is an array of four values,
    else the bounds walked when all four are finite, else [null]; [null]
    also when something throws. *)
Definition bboxFromGeoJSON (fc : json) : option (list json) :=
  match prop "bbox" fc with
  | JArray [a; b; c; d] => Some [a; b; c; d]
  | _ =>
      match walked fc with
      | Some b =>
          if isFinite4 b
          then Some [JNumber (minLng b); JNumber (minLat b);
                     JNumber (maxLng b); JNumber (maxLat b)]
          else None
      | None => None
      end
  end.

(** *** The positions a walk visits *)

Fixpoint positions (coords : json) : list (number * number) :=
  if falsy coords then []
  else
    match item 0 "0" coords, item 1 "1" coords with
    | JNumber lng, JNumber lat => [(lng, lat)]
    | _, _ =>
        match coords with
        | JArray l => flat_map positions l
        | _ => []
        end
    end.

(** The positions of a document, by the same three branches. *)
Definition visited (fc : json) : list (number * number) :=
  match prop "type" fc with
  | JString "FeatureCollection" =>
      match iterate (prop "features" fc) with
      | Some fs => flat_map (fun f => positions (prop "coordinates" (prop "geometry" f))) fs
      | None => []
      end
  | JString "Feature" => positions (prop "coordinates" (prop "geometry" fc))
  | _ => positions (prop "coordinates" fc)
  end.

(** Iterating [fc.features] throws: the document is a feature collection
    whose [features] are truthy and not iterable. *)
Definition iterationThrows (fc : json) : bool :=
  match prop "type" fc with
  | JString "FeatureCollection" =>
      match iterate (prop "features" fc) with Some _ => false | None => true end
  | _ => false
  end.

(** The document has a [bbox] member that is an array of four values. *)
Definition hasBbox (fc : json) : bool :=
  match prop "bbox" fc with
  | JArray [_; _; _; _] => true
  | _ => false
  end.

(** None of the four bounds is NaN. *)
Definition noNaN4 (b : BBox) : bool :=
  negb (is_nan (minLng b)) && negb (is_nan (minLat b)) &&
  negb (is_nan (maxLng b)) && negb (is_nan (maxLat b)).

(** Both coordinates of a position are finite. *)
Definition finitePosition (p : number * number) : bool :=
  Number_isFinite (fst p) && Number_isFinite (snd p).

(** A square ring, as GeoJSON writes it. *)
Definition ring (lo hi : Z) : json :=
  JArray (map (fun p => JArray [JNumber (of_Z (fst p)); JNumber (of_Z (snd p))])
              [(lo, lo); (hi, lo); (hi, hi); (lo, hi); (lo, lo)]).

Definition polygonFeature (lo hi : Z) : json :=
  JObject [("type", JString "Feature");
           ("geometry", JObject [("type", JString "Polygon");
                                 ("coordinates", JArray [ring lo hi])])].

Definition twoSquares : json :=
  JObject [("type", JString "FeatureCollection");
           ("features", JArray [polygonFeature 1 3; polygonFeature 2 7])].

End MapView.

(** ** The arrival time sent with a request: [toArriveByISO] of [src/app/page.tsx] *)
Module Arrive.
Import JSNumber JSString.

(** [s.split(":")] *)
Fixpoint splitColon (cur : string) (s : string) : list string :=
  match s with
  | EmptyString => [String.rev cur]
  | String c s' =>
      if Ascii.eqb c ":" then String.rev cur :: splitColon EmptyString s'
      else splitColon (String c cur) s'
  end.

(** [s.padStart(2, "0")] *)
Definition padStart2 (s : string) : string :=
  String.append (zeros (2 - String.length s)) s.

(** [String(z)] for an integer [z]. *)
Definition String_of_Z (z : Z) : string :=
  String.append (if z <? 0 then "-" else "") (digits (Z.abs_N z)).

Section Dates.
(** The [Date] object: the day of the week (0 is Sunday, 6 is Saturday), the
    calendar fields, and the effect of [d.setDate(d.getDate() + 1)]. *)
Variable Date : Type.
Variable getDay : Date -> Z.
Variable getFullYear : Date -> Z.
Variable getMonth : Date -> Z.
Variable getDate : Date -> Z.
Variable nextDay : Date -> Date.
(** [Number(s)], and the rendering of the numbers that are not integers of
    magnitude at most 2^53. *)
Variable Number_of : string -> number.
Variable toString_other : number -> string.

(** [while (d.getDay() === 0 || d.getDay() === 6) d.setDate(d.getDate() + 1)],
    with a bound on the number of turns; [None] when the bound is reached. *)
Fixpoint skipWeekend (fuel : nat) (d : Date) : option Date :=
  if (getDay d =? 0) || (getDay d =? 6) then
    match fuel with
    | O => None
    | S fuel' => skipWeekend fuel' (nextDay d)
    end
  else Some d.

(** [String(x)] for [x] from the destructured array: a number, or
    [undefined] when the array is too short. *)
Definition String_of (x : option number) : string :=
  match x with
  | Some n => Number_toString toString_other n
  | None => "undefined"
  end.

Definition toArriveByISO (fuel : nat) (now : Date) (timeHHMM : string) : option string :=
  let parts := map Number_of (splitColon EmptyString timeHHMM) in
  let hh := nth_error parts 0 in
  let mm := nth_error parts 1 in
  match skipWeekend fuel now with
  | None => None
  | Some d =>
      let yyyy := String_of_Z (getFullYear d) in
      let MM := padStart2 (String_of_Z (getMonth d + 1)) in
      let dd := padStart2 (String_of_Z (getDate d)) in
      let HH := padStart2 (String_of hh) in
      let Min := padStart2 (String_of mm) in
      Some (String.append yyyy (String.append "-" (String.append MM (String.append "-"
             (String.append dd (String.append "T" (String.append HH (String.append ":"
               (String.append Min ":00-04:00")))))))))
  end.

End Dates.

(** Dates as a count of days for the examples: day 0 is a Thursday; the
    calendar fields are not computed. *)
Definition dayOfWeek (d : Z) : Z := (d + 4) mod 7.

End Arrive.

(** * Properties *)

(** ** Numbers *)
Module NumberFacts.
Import JSNumber.

(** *** Facts about the comparison *)

Lemma ltb_leb x y : ltb x y = true -> leb x y = true.
Proof.
  unfold ltb, leb, SFltb, SFleb.
  destruct (SFcompare x y) as [[]|]; congruence.
Qed.

Lemma leb_refl x : is_nan x = false -> leb x x = true.
Proof.
  unfold leb, SFleb. destruct x as [s|s| |s m e]; simpl; try congruence.
  - destruct s; reflexivity.
  - intros _. destruct s; rewrite Z.compare_refl, Pos.compare_cont_refl; reflexivity.
Qed.

(** *** Rounding never produces NaN from a non-negative mantissa *)

Lemma shr_1_nonneg mrs : 0 <= shr_m mrs -> 0 <= shr_m (shr_1 mrs).
Proof.
  destruct mrs as [m r s]; simpl.
  destruct m as [|[p|p|]|[p|p|]]; simpl; lia.
Qed.

Lemma iter_shr_1_nonneg p : forall mrs,
  0 <= shr_m mrs -> 0 <= shr_m (SpecFloat.iter_pos shr_1 p mrs).
Proof.
  induction p as [p IH|p IH|]; intros mrs H; simpl.
  - apply IH, IH, shr_1_nonneg, H.
  - apply IH, IH, H.
  - apply shr_1_nonneg, H.
Qed.

Lemma shr_fexp_nonneg m e l :
  0 <= m -> 0 <= shr_m (fst (shr_fexp prec emax m e l)).
Proof.
  intros Hm. unfold shr_fexp, shr.
  assert (H0 : 0 <= shr_m (shr_record_of_loc m l))
    by (destruct l as [|[]]; simpl; exact Hm).
  destruct (fexp prec emax (Zdigits2 m + e) - e); simpl; auto.
  apply iter_shr_1_nonneg, H0.
Qed.

Lemma round_nearest_even_nonneg m l : 0 <= m -> 0 <= round_nearest_even m l.
Proof.
  intros Hm. destruct l as [|[]]; simpl; try lia.
  destruct (Z.even m); lia.
Qed.

Lemma binary_round_aux_not_nan s m e l :
  0 <= m -> is_nan (binary_round_aux prec emax s m e l) = false.
Proof.
  intros Hm. unfold binary_round_aux.
  pose proof (shr_fexp_nonneg m e l Hm) as H1.
  destruct (shr_fexp prec emax m e l) as [mrs1 e1]; simpl in H1.
  pose proof (shr_fexp_nonneg _ e1 loc_Exact
                (round_nearest_even_nonneg _ (loc_of_shr_record mrs1) H1)) as H2.
  destruct (shr_fexp prec emax _ e1 loc_Exact) as [mrs2 e2]; simpl in H2.
  destruct (shr_m mrs2) as [|q|q]; try reflexivity.
  - destruct (e2 <=? emax - prec); reflexivity.
  - lia.
Qed.

Lemma mul_finite_not_nan x y :
  Number_isFinite x = true -> Number_isFinite y = true -> is_nan (mul x y) = false.
Proof.
  destruct x as [sx|sx| |sx mx ex], y as [sy|sy| |sy my ey]; simpl; try congruence;
    intros _ _; try reflexivity.
  apply binary_round_aux_not_nan. lia.
Qed.

Lemma of_Z_not_nan z : is_nan (of_Z z) = false.
Proof.
  unfold of_Z, binary_normalize, binary_round.
  destruct z as [|p|p]; try reflexivity;
    destruct (shl_align _ _ _) as [mz ez]; apply binary_round_aux_not_nan; lia.
Qed.

Lemma Math_round_not_nan x : is_nan x = false -> is_nan (Math_round x) = false.
Proof.
  destruct x as [s|s| |s m e]; simpl; try congruence. intros _.
  destruct (0 <=? e); [reflexivity|].
  destruct (_ =? 0); [reflexivity|apply of_Z_not_nan].
Qed.

(** *** Order facts behind [Math.min] and [Math.max] *)

Lemma SFcompare_antisym x y :
  SFcompare y x = option_map CompOpp (SFcompare x y).
Proof.
  destruct x as [sx|sx| |sx mx ex], y as [sy|sy| |sy my ey]; simpl;
    try reflexivity; try (destruct sx; reflexivity); try (destruct sy; reflexivity);
    try (destruct sx, sy; reflexivity).
  assert (HP : Pos.compare_cont Eq mx my = CompOpp (Pos.compare_cont Eq my mx))
    by apply (Pos.compare_antisym my mx).
  f_equal. rewrite (Z.compare_antisym ey ex), HP.
  destruct sx, sy; simpl; try reflexivity;
    destruct (ey ?= ex); simpl; try reflexivity;
    destruct (Pos.compare_cont Eq my mx); reflexivity.
Qed.

Lemma SFcompare_some x y :
  is_nan x = false -> is_nan y = false -> exists c, SFcompare x y = Some c.
Proof.
  destruct x as [sx|sx| |sx mx ex], y as [sy|sy| |sy my ey]; simpl;
    try congruence; intros _ _; eexists; reflexivity.
Qed.

Lemma not_ltb_leb x y :
  is_nan x = false -> is_nan y = false ->
  ltb x y = false -> ltb y x = false -> leb x y = true /\ leb y x = true.
Proof.
  intros Hx Hy. unfold ltb, leb, SFltb, SFleb.
  rewrite (SFcompare_antisym x y).
  destruct (SFcompare_some x y Hx Hy) as [c ->].
  destruct c; simpl; intros; (congruence || split; reflexivity).
Qed.

Lemma Math_min_spec x y :
  is_nan x = false -> is_nan y = false ->
  (Math_min x y = x \/ Math_min x y = y) /\
  leb (Math_min x y) x = true /\ leb (Math_min x y) y = true.
Proof.
  intros Hx Hy. unfold Math_min. rewrite Hx, Hy. simpl.
  destruct (ltb y x) eqn:Hyx.
  { auto using ltb_leb, leb_refl. }
  destruct (ltb x y) eqn:Hxy.
  { auto using ltb_leb, leb_refl. }
  destruct (not_ltb_leb x y Hx Hy Hxy Hyx).
  destruct (is_negative x); auto using leb_refl.
Qed.

Lemma Math_max_spec x y :
  is_nan x = false -> is_nan y = false ->
  (Math_max x y = x \/ Math_max x y = y) /\
  leb x (Math_max x y) = true /\ leb y (Math_max x y) = true.
Proof.
  intros Hx Hy. unfold Math_max. rewrite Hx, Hy. simpl.
  destruct (ltb x y) eqn:Hxy.
  { auto using ltb_leb, leb_refl. }
  destruct (ltb y x) eqn:Hyx.
  { auto using ltb_leb, leb_refl. }
  destruct (not_ltb_leb x y Hx Hy Hxy Hyx).
  destruct (is_negative x); auto using leb_refl.
Qed.

(** Clamping a non-NaN value between two bounds stays within them. *)
Lemma clamp_bounds lo hi x :
  is_nan lo = false -> is_nan hi = false -> is_nan x = false ->
  leb lo hi = true ->
  let r := Math_max lo (Math_min x hi) in
  is_nan r = false /\ leb lo r = true /\ leb r hi = true.
Proof.
  intros Hlo Hhi Hx Hle r.
  destruct (Math_min_spec x hi Hx Hhi) as (Hsel & _ & Hmin).
  assert (Hm : is_nan (Math_min x hi) = false) by (destruct Hsel as [-> | ->]; assumption).
  destruct (Math_max_spec lo (Math_min x hi) Hlo Hm) as (Hsel' & Hmax & _).
  subst r. repeat split; [| exact Hmax |];
    destruct Hsel' as [-> | ->]; assumption.
Qed.

(** *** The comparison is a preorder on non-NaN values *)

Lemma leb_not_ltb x y : leb x y = true -> ltb y x = false.
Proof.
  unfold leb, ltb, SFleb, SFltb. rewrite (SFcompare_antisym x y).
  destruct (SFcompare x y) as [[]|]; simpl; congruence.
Qed.

Lemma leb_trans x y z : leb x y = true -> leb y z = true -> leb x z = true.
Proof.
  unfold leb, SFleb.
  destruct x as [sx|sx| |sx mx ex], y as [sy|sy| |sy my ey], z as [sz|sz| |sz mz ez];
    simpl; try congruence;
    try (destruct sx; simpl; congruence);
    try (destruct sy; simpl; congruence);
    try (destruct sz; simpl; congruence);
    try (destruct sx, sy; simpl; congruence);
    try (destruct sx, sz; simpl; congruence);
    try (destruct sy, sz; simpl; congruence);
    try (destruct sx, sy, sz; simpl; congruence).
  change (Pos.compare_cont Eq mx my) with (Pos.compare mx my).
  change (Pos.compare_cont Eq my mz) with (Pos.compare my mz).
  change (Pos.compare_cont Eq mx mz) with (Pos.compare mx mz).
  destruct sx, sy, sz; simpl; try congruence;
    destruct (Z.compare_spec ex ey), (Z.compare_spec ey ez), (Z.compare_spec ex ez);
    simpl; try congruence; try lia;
    destruct (Pos.compare_spec mx my), (Pos.compare_spec my mz), (Pos.compare_spec mx mz);
    simpl; try congruence; try lia.
Qed.

End NumberFacts.

(** ** The route *)
Module RouteFacts.
Import JSNumber JSString Route NumberFacts.

Lemma validate_finite raw b :
  validate raw = Some b ->
  Number_isFinite (lat b) = true /\ Number_isFinite (lng b) = true /\
  Number_isFinite (minutes b) = true.
Proof.
  unfold validate.
  destruct (raw_lat raw) as [la| |]; try discriminate.
  destruct (raw_lng raw) as [ln| |]; try discriminate.
  destruct (raw_arriveByISO raw) as [|a|]; try discriminate.
  destruct (raw_minutes raw) as [mi| |]; try discriminate.
  destruct (raw_mode raw) as [|mo|]; try discriminate.
  destruct (Number_isFinite la) eqn:Hla, (Number_isFinite ln) eqn:Hln,
    (Number_isFinite mi) eqn:Hmi; simpl; try discriminate.
  intros [= <-]. simpl. auto.
Qed.

Lemma finite_not_nan x : Number_isFinite x = true -> is_nan x = false.
Proof. destruct x; simpl; congruence. Qed.

Lemma travelTimeSeconds_bounds mins :
  Number_isFinite mins = true ->
  is_nan (travelTimeSeconds mins) = false /\
  leb (of_Z 60) (travelTimeSeconds mins) = true /\
  leb (travelTimeSeconds mins) (of_Z 10800) = true.
Proof.
  intros Hfin. unfold travelTimeSeconds.
  apply clamp_bounds; try reflexivity.
  apply Math_round_not_nan, mul_finite_not_nan; [exact Hfin | reflexivity].
Qed.

Lemma at_least_10800_not_negative x :
  leb (of_Z 10800) x = true -> is_negative x = false.
Proof. destruct x as [s|s| |s m e]; try destruct s; vm_compute; congruence. Qed.

(** The value of the clamp of line 49 on a rounded product [r] that is a
    number: the floor up to 60, the ceiling from 10800 on, [r] itself
    strictly in between; and one of the three is always the case. *)
Lemma clamp_value r :
  is_nan r = false ->
  let t := Math_max (of_Z 60) (Math_min r (of_Z 10800)) in
  (leb r (of_Z 60) = true -> t = of_Z 60) /\
  (leb (of_Z 10800) r = true -> t = of_Z 10800) /\
  (ltb (of_Z 60) r = true -> ltb r (of_Z 10800) = true -> t = r) /\
  (leb r (of_Z 60) = true \/ leb (of_Z 10800) r = true \/
   ltb (of_Z 60) r = true /\ ltb r (of_Z 10800) = true).
Proof.
  intros Hr. cbv zeta.
  assert (H60 : is_nan (of_Z 60) = false) by reflexivity.
  assert (H10800 : is_nan (of_Z 10800) = false) by reflexivity.
  assert (Hlohi : leb (of_Z 10800) (of_Z 60) = false) by reflexivity.
  split; [|split; [|split]].
  - intros Hle.
    assert (Hmin : Math_min r (of_Z 10800) = r).
    { unfold Math_min. rewrite Hr. cbn [is_nan of_Z orb].
      rewrite (leb_not_ltb r (of_Z 10800)) by (apply (leb_trans _ _ _ Hle); reflexivity).
      destruct (ltb r (of_Z 10800)) eqn:E; [reflexivity|].
      exfalso.
      destruct (not_ltb_leb r (of_Z 10800) Hr H10800 E) as [_ H].
      { apply leb_not_ltb, (leb_trans _ _ _ Hle). reflexivity. }
      rewrite (leb_trans _ _ _ H Hle) in Hlohi. discriminate. }
    rewrite Hmin. unfold Math_max. rewrite Hr. cbn [is_nan of_Z orb].
    rewrite (leb_not_ltb _ _ Hle). destruct (ltb r (of_Z 60)); reflexivity.
  - intros Hge.
    assert (Hmin : Math_min r (of_Z 10800) = of_Z 10800).
    { unfold Math_min. rewrite Hr. cbn [is_nan of_Z orb].
      rewrite (leb_not_ltb _ _ Hge), (at_least_10800_not_negative r Hge).
      destruct (ltb (of_Z 10800) r); reflexivity. }
    rewrite Hmin. reflexivity.
  - intros Hlo Hhi.
    assert (Hmin : Math_min r (of_Z 10800) = r).
    { unfold Math_min. rewrite Hr. cbn [is_nan of_Z orb].
      rewrite (leb_not_ltb _ _ (ltb_leb _ _ Hhi)), Hhi. reflexivity. }
    rewrite Hmin. unfold Math_max. rewrite Hr. cbn [is_nan of_Z orb].
    rewrite Hlo. reflexivity.
  - destruct (ltb r (of_Z 60)) eqn:E1; [left; apply ltb_leb, E1|].
    destruct (ltb (of_Z 60) r) eqn:E2.
    2:{ left. apply (not_ltb_leb r (of_Z 60) Hr H60 E1 E2). }
    destruct (ltb (of_Z 10800) r) eqn:E3; [right; left; apply ltb_leb, E3|].
    destruct (ltb r (of_Z 10800)) eqn:E4; [right; right; split; reflexivity|].
    right; left. apply (not_ltb_leb r (of_Z 10800) Hr H10800 E4 E3).
Qed.

Section WithBuiltins.
Variable toString_other : number -> string.
Variable json : Type.
Variable JSON_parse : string -> option json.

Local Abbreviation cacheKey := (cacheKey toString_other).
Local Abbreviation lookup_or_fetch := (lookup_or_fetch toString_other json JSON_parse).
Local Abbreviation POST := (POST toString_other json JSON_parse).
Local Abbreviation parse_body := (parse_body json JSON_parse).
Local Abbreviation outcome := (outcome toString_other json JSON_parse).

(** The outbound calls of one request: none, or the one call for the
    validated body. *)
Lemma lookup_or_fetch_calls b now net cache :
  snd (lookup_or_fetch b now net cache) = [] \/
  snd (lookup_or_fetch b now net cache) = [payload b].
Proof.
  unfold lookup_or_fetch, Route.lookup_or_fetch.
  destruct (fresh _ now); [left; reflexivity|].
  destruct (net (payload b)) as [|resp]; [right; reflexivity|].
  destruct (negb (ok resp)); [right; reflexivity|].
  destruct (Route.parse_body _ _ _ _); right; reflexivity.
Qed.

Lemma POST_calls req env now net cache :
  snd (POST req env now net cache) = [] \/
  exists raw b, req = JsonObject raw /\ validate raw = Some b /\
                snd (POST req env now net cache) = [payload b].
Proof.
  unfold POST, Route.POST. destruct req as [| |raw]; try (left; reflexivity).
  destruct (validate raw) as [b|] eqn:Hv; [|left; reflexivity].
  destruct (missing _ || missing _); [left; reflexivity|].
  destruct (lookup_or_fetch_calls b now net cache) as [H|H]; [left; exact H|].
  right. exists raw, b. auto.
Qed.

Lemma POST_valid raw b env now net cache :
  validate raw = Some b ->
  missing (TRAVELTIME_APP_ID env) = false ->
  missing (TRAVELTIME_API_KEY env) = false ->
  POST (JsonObject raw) env now net cache = lookup_or_fetch b now net cache.
Proof. intros Hv Ha Hk. unfold POST, Route.POST. rewrite Hv, Ha, Hk. reflexivity. Qed.

(** A request either ends before the lookup, leaving the cache alone and
    calling nobody, or it is the lookup-or-fetch of its validated body. *)
Lemma POST_cases req env now net cache :
  (exists r, POST req env now net cache = (r, cache, [])) \/
  (exists b, POST req env now net cache = lookup_or_fetch b now net cache).
Proof.
  unfold POST, Route.POST. destruct req as [| |raw]; try (left; eexists; reflexivity).
  destruct (validate raw) as [b|]; [|left; eexists; reflexivity].
  destruct (missing _ || missing _); [left; eexists; reflexivity|].
  right. exists b. reflexivity.
Qed.

Lemma fresh_inv (hit : option (CacheEntry json)) now g :
  fresh hit now = Some g -> exists h, hit = Some h /\ now < expiresAt h /\ g = geojson h.
Proof.
  destruct hit as [h|]; simpl; [|discriminate].
  destruct (expiresAt h >? now) eqn:E; [|discriminate].
  intros [= <-]. exists h. repeat split. lia.
Qed.

Lemma lookup_or_fetch_outcome b now net cache :
  outcome b now net cache (lookup_or_fetch b now net cache).
Proof.
  unfold lookup_or_fetch, Route.lookup_or_fetch.
  destruct (fresh (cache !! cacheKey b) now) as [g|] eqn:Hf.
  { destruct (fresh_inv _ _ _ Hf) as (h & Hh & Hlt & ->). by apply served_from_cache. }
  destruct (net (payload b)) as [|resp] eqn:Hnet.
  { by apply fetch_rejected. }
  destruct (ok resp) eqn:Hok; simpl.
  - destruct (Route.parse_body json JSON_parse _ _) as [g|] eqn:Hp.
    + by eapply fetch_stored.
    + eapply fetch_failed; eauto.
  - eapply fetch_failed; eauto.
Qed.

Lemma fresh_expired (h : CacheEntry json) now : expiresAt h <= now -> fresh (Some h) now = None.
Proof. intros H. simpl. destruct (expiresAt h >? now) eqn:E; [lia|reflexivity]. Qed.

Lemma fresh_unexpired (h : CacheEntry json) now :
  now < expiresAt h -> fresh (Some h) now = Some (geojson h).
Proof. intros H. simpl. destruct (expiresAt h >? now) eqn:E; [reflexivity|lia]. Qed.

(** What a lookup-or-fetch returns depends on the cache only through the
    fresh entry under the request's key. *)
Lemma lookup_or_fetch_miss b now net cache cache' :
  fresh (cache !! cacheKey b) now = None ->
  fresh (cache' !! cacheKey b) now = None ->
  fst (fst (lookup_or_fetch b now net cache)) = fst (fst (lookup_or_fetch b now net cache')) /\
  snd (lookup_or_fetch b now net cache) = snd (lookup_or_fetch b now net cache').
Proof.
  intros H H'. unfold lookup_or_fetch, Route.lookup_or_fetch. rewrite H, H'.
  destruct (net (payload b)) as [|resp]; [auto|].
  destruct (negb (ok resp)); [auto|].
  destruct (Route.parse_body _ _ _ _); auto.
Qed.

(** A validated request that misses the cache and whose fetch succeeds stores
    the document under its key, to expire ten minutes after [now]. *)
Lemma POST_stores raw b env now net cache resp g :
  validate raw = Some b ->
  missing (TRAVELTIME_APP_ID env) = false ->
  missing (TRAVELTIME_API_KEY env) = false ->
  fresh (cache !! cacheKey b) now = None ->
  net (payload b) = FetchResolves resp ->
  ok resp = true ->
  parse_body (default EmptyString (content_type resp)) (text resp) = Some g ->
  POST (JsonObject raw) env now net cache =
    ({| status := 200; body := DataBody g |},
     <[cacheKey b := {| expiresAt := now + 600000; geojson := g |}]> cache,
     [payload b]).
Proof.
  intros Hv Ha Hk Hf Hnet Hok Hp. rewrite (POST_valid raw b env) by assumption.
  unfold lookup_or_fetch, Route.lookup_or_fetch.
  rewrite Hf, Hnet, Hok. simpl. fold parse_body. rewrite Hp. reflexivity.
Qed.

(** C7. Once a request is validated and the credentials are present: an
    entry whose expiry is strictly in the future is returned with no outbound
    call and no change to the cache; an entry at or after its expiry is
    treated as a miss (same response and same single outbound call as with
    the entry absent); and the entry written after a successful fetch expires
    ten minutes after the time of the request. *)
Theorem cache_lookup_ttl raw b env now net cache :
  validate raw = Some b ->
  missing (TRAVELTIME_APP_ID env) = false ->
  missing (TRAVELTIME_API_KEY env) = false ->
  (forall h, cache !! cacheKey b = Some h -> now < expiresAt h ->
     POST (JsonObject raw) env now net cache =
       ({| status := 200; body := DataBody (geojson h) |}, cache, [])) /\
  (forall h, cache !! cacheKey b = Some h -> expiresAt h <= now ->
     let run := POST (JsonObject raw) env now net cache in
     let miss := POST (JsonObject raw) env now net (delete (cacheKey b) cache) in
     snd run = [payload b] /\ snd miss = [payload b] /\
     fst (fst run) = fst (fst miss)) /\
  (forall resp g,
     fresh (cache !! cacheKey b) now = None ->
     net (payload b) = FetchResolves resp ->
     ok resp = true ->
     parse_body (default EmptyString (content_type resp)) (text resp) = Some g ->
     POST (JsonObject raw) env now net cache =
       ({| status := 200; body := DataBody g |},
        <[cacheKey b := {| expiresAt := now + 600000; geojson := g |}]> cache,
        [payload b])).
Proof.
  intros Hv Ha Hk. rewrite !(POST_valid raw b env) by assumption.
  split; [|split].
  - intros h Hh Hlt. unfold lookup_or_fetch, Route.lookup_or_fetch.
    rewrite Hh, (fresh_unexpired h now Hlt). reflexivity.
  - intros h Hh Hle. simpl.
    assert (H1 : fresh (cache !! cacheKey b) now = None)
      by (rewrite Hh; apply fresh_expired, Hle).
    assert (H2 : fresh (delete (cacheKey b) cache !! cacheKey b) now = None)
      by (rewrite lookup_delete_eq; reflexivity).
    destruct (lookup_or_fetch_miss b now net _ _ H1 H2) as [Hr Hc].
    assert (Hcalls : snd (lookup_or_fetch b now net cache) = [payload b]).
    { destruct (lookup_or_fetch_outcome b now net cache) as [h' Hh' Hlt| | |];
        try reflexivity.
      rewrite Hh in Hh'. injection Hh' as <-. lia. }
    rewrite <- Hc, Hr. auto.
  - intros resp g Hf Hnet Hok Hp.
    rewrite <- (POST_valid raw b env) by assumption.
    eapply POST_stores; eassumption.
Qed.

(** C8. When the outbound call of a request answers with a non-success
    status, or with a body that [JSON.parse] rejects, the request ends with a
    502 error response and the cache is the one it started with. *)
Theorem failed_fetch_leaves_cache req env now net cache p resp :
  In p (snd (POST req env now net cache)) ->
  net p = FetchResolves resp ->
  ok resp = false \/
  parse_body (default EmptyString (content_type resp)) (text resp) = None ->
  let run := POST req env now net cache in
  status (fst (fst run)) = 502 /\
  (exists msg up, body (fst (fst run)) = ErrorBody msg (Some up)) /\
  snd (fst run) = cache.
Proof.
  intros Hin Hnet Hfail. simpl.
  destruct (POST_cases req env now net cache) as [[r H]|[b H]]; rewrite H in *.
  { simpl in Hin. contradiction. }
  destruct (lookup_or_fetch_outcome b now net cache) as [| |resp' msg up|resp' g];
    simpl in *.
  - contradiction.
  - destruct Hin as [<-|[]]. congruence.
  - eauto.
  - destruct Hin as [<-|[]].
    assert (resp' = resp) as -> by congruence.
    destruct Hfail; congruence.
Qed.

(** C9. A request leaves the cache as it was, or it adds the entry of its own
    successful fetch under its own key; the keys never shrink; a request that
    makes no outbound call (in particular one served from the cache) changes
    nothing; and an entry that has not expired is still there, with the same
    expiry, afterwards. *)
Theorem cache_written_only_on_success req env now net cache :
  let run := POST req env now net cache in
  let cache' := snd (fst run) in
  (cache' = cache \/
   exists b g,
     status (fst (fst run)) = 200 /\ body (fst (fst run)) = DataBody g /\
     snd run = [payload b] /\ fresh (cache !! cacheKey b) now = None /\
     cache' = <[cacheKey b := {| expiresAt := now + 10 * 60 * 1000; geojson := g |}]> cache) /\
  dom cache ⊆ dom cache' /\
  (snd run = [] -> cache' = cache) /\
  (forall k h, cache !! k = Some h -> now < expiresAt h -> cache' !! k = Some h).
Proof.
  simpl.
  destruct (POST_cases req env now net cache) as [[r H]|[b H]]; rewrite H.
  { simpl. repeat split; auto. }
  destruct (lookup_or_fetch_outcome b now net cache) as [| | |resp g Hf Hnet Hok Hp];
    simpl; try (repeat split; auto; fail).
  repeat split.
  - right. exists b, g. repeat split; auto.
  - rewrite dom_insert. set_solver.
  - discriminate.
  - intros k h Hk Hlt. destruct (decide (cacheKey b = k)) as [<-|Hne].
    + rewrite Hk, (fresh_unexpired h now Hlt) in Hf. discriminate.
    + rewrite lookup_insert_ne by assumption. exact Hk.
Qed.

(** *** The key depends on a coordinate only through its rounding cell *)

Lemma pow2_pos e : 0 <= e -> 0 < 2 ^ e.
Proof. intros He. apply Z.pow_pos_nonneg; lia. Qed.

Lemma scaled_round_cell x s m e k :
  x = S754_finite s m e -> rounds_to x k ->
  ge_1e21 m e = false /\ scaled_round m e = k.
Proof.
  intros -> (_ & Hbig & Hlo & Hhi). unfold magnitude in *.
  unfold ge_1e21, scaled_round.
  destruct (0 <=? e) eqn:He.
  - set (M := Zpos m * 2 ^ e) in *.
    unfold Qlt, Qle in *. simpl in *. split; [apply Z.leb_gt|]; lia.
  - apply Z.leb_gt in He.
    assert (HD : 0 < 2 ^ (- e)) by (apply pow2_pos; lia).
    assert (HP : Zpos (Z.to_pos (2 ^ (- e))) = 2 ^ (- e)) by (apply Z2Pos.id; exact HD).
    assert (H2 : 2 ^ (1 - e) = 2 * 2 ^ (- e)).
    { replace (1 - e) with (Z.succ (- e)) by lia. apply Z.pow_succ_r. lia. }
    unfold Qlt, Qle in *. simpl in *.
    rewrite ?Pos2Z.inj_mul, ?HP in *.
    set (D := 2 ^ (- e)) in *. rewrite H2.
    split; [apply Z.leb_gt; lia|].
    symmetry. apply (Z.div_unique_pos _ _ k (2 * (Zpos m * 100000) + D - 2 * D * k)); lia.
Qed.

Lemma toFixed5_cell x k :
  rounds_to x k ->
  toFixed5 toString_other x =
    String.append (if below_zero x then "-" else "") (fixed_digits k).
Proof.
  intros H. destruct x as [s|s| |s m e].
  - destruct H as (_ & _ & Hlo & Hhi). simpl in *.
    unfold Qlt, Qle in *. simpl in *. assert (k = 0) as -> by lia. reflexivity.
  - destruct H as [H _]. discriminate.
  - destruct H as [H _]. discriminate.
  - destruct (scaled_round_cell _ s m e k eq_refl H) as [Hge Hk].
    simpl. rewrite Hge, Hk. reflexivity.
Qed.

(** C6, as amended.  Two requests whose latitudes round to the same multiple
    of 10^-5 (sign included), whose longitudes do too, and that agree on
    arrival time, minutes and mode, have the same cache key. *)
Theorem cacheKey_same_rounding b1 b2 :
  same_rounding (lat b1) (lat b2) ->
  same_rounding (lng b1) (lng b2) ->
  arriveByISO b1 = arriveByISO b2 ->
  minutes b1 = minutes b2 ->
  mode b1 = mode b2 ->
  cacheKey b1 = cacheKey b2.
Proof.
  intros (Hs & k & Hk1 & Hk2) (Hs' & k' & Hk1' & Hk2') Ha Hm Hmo.
  unfold cacheKey, Route.cacheKey.
  rewrite (toFixed5_cell _ k Hk1), (toFixed5_cell _ k Hk2).
  rewrite (toFixed5_cell _ k' Hk1'), (toFixed5_cell _ k' Hk2').
  rewrite Hs, Hs', Ha, Hm, Hmo. reflexivity.
Qed.

(** C10. Two validated requests that agree on everything but the minutes, one
    with 200 and one with 1000, are sent outbound with the same payload
    (10800 seconds) and yet have different cache keys; served one after the
    other on a miss, each makes its own outbound call and each leaves its own
    entry in the cache. *)
Theorem raw_minutes_in_cache_key raw1 raw2 b1 b2 env :
  validate raw1 = Some b1 ->
  validate raw2 = Some b2 ->
  missing (TRAVELTIME_APP_ID env) = false ->
  missing (TRAVELTIME_API_KEY env) = false ->
  lat b1 = lat b2 -> lng b1 = lng b2 ->
  arriveByISO b1 = arriveByISO b2 -> mode b1 = mode b2 ->
  minutes b1 = of_Z 200 -> minutes b2 = of_Z 1000 ->
  travelTimeSeconds (minutes b1) = of_Z 10800 /\
  travelTimeSeconds (minutes b2) = of_Z 10800 /\
  payload b1 = payload b2 /\
  cacheKey b1 <> cacheKey b2 /\
  forall now net cache resp g,
    fresh (cache !! cacheKey b1) now = None ->
    fresh (cache !! cacheKey b2) now = None ->
    net (payload b1) = FetchResolves resp ->
    ok resp = true ->
    parse_body (default EmptyString (content_type resp)) (text resp) = Some g ->
    let run1 := POST (JsonObject raw1) env now net cache in
    let run2 := POST (JsonObject raw2) env now net (snd (fst run1)) in
    snd run1 = [payload b1] /\ snd run2 = [payload b2] /\
    is_Some (snd (fst run2) !! cacheKey b1) /\
    is_Some (snd (fst run2) !! cacheKey b2).
Proof.
  intros Hv1 Hv2 Ha Hk Hlat Hlng Harr Hmode Hm1 Hm2.
  assert (Ht1 : travelTimeSeconds (minutes b1) = of_Z 10800)
    by (rewrite Hm1; vm_compute; reflexivity).
  assert (Ht2 : travelTimeSeconds (minutes b2) = of_Z 10800)
    by (rewrite Hm2; vm_compute; reflexivity).
  assert (Hp : payload b1 = payload b2).
  { unfold payload. rewrite Hlat, Hlng, Hmode, Ht1, Ht2. reflexivity. }
  assert (Hkey : cacheKey b1 <> cacheKey b2).
  { unfold cacheKey, Route.cacheKey. rewrite Hlat, Hlng, Harr, Hmode, Hm1, Hm2.
    intros Heq. repeat apply String.app_inj in Heq.
    vm_compute in Heq. discriminate. }
  split; [exact Ht1|]. split; [exact Ht2|]. split; [exact Hp|]. split; [exact Hkey|].
  intros now net cache resp g Hf1 Hf2 Hnet Hok Hparse; cbv zeta.
  rewrite (POST_stores raw1 b1 env now net cache resp g) by assumption; cbn [fst snd].
  set (cache1 := <[cacheKey b1 := _]> cache).
  assert (Hf2' : fresh (cache1 !! cacheKey b2) now = None)
    by (unfold cache1; rewrite lookup_insert_ne by exact Hkey; exact Hf2).
  rewrite Hp in Hnet.
  rewrite (POST_stores raw2 b2 env now net cache1 resp g) by assumption; cbn [fst snd].
  split; [reflexivity|]. split; [reflexivity|]. split.
  - rewrite lookup_insert_ne by (intros E; apply Hkey; symmetry; exact E).
    unfold cache1. rewrite lookup_insert_eq. eauto.
  - rewrite lookup_insert_eq. eauto.
Qed.

(** C5. Every payload sent outbound belongs to a validated request and
    carries, as its travel time, the minutes of that request multiplied by
    sixty, rounded to the nearest integer and clamped: 60 when the rounded
    product is at most 60, 10800 when it is at least 10800, and the rounded
    product itself when it lies strictly between the two, one of these
    three always being the case.  So the travel time sent is a number
    between 60 and 10800 seconds.  1000 minutes give 10800 seconds,
    0 minutes give 60 seconds, and 30 minutes give 1800 seconds. *)
Theorem travel_time_clamped :
  (forall req env now net cache p,
      In p (snd (POST req env now net cache)) ->
      exists raw b,
        req = JsonObject raw /\ validate raw = Some b /\
        let r := Math_round (mul (minutes b) (of_Z 60)) in
        let t := travel_time p in
        (leb r (of_Z 60) = true -> t = of_Z 60) /\
        (leb (of_Z 10800) r = true -> t = of_Z 10800) /\
        (ltb (of_Z 60) r = true -> ltb r (of_Z 10800) = true -> t = r) /\
        (leb r (of_Z 60) = true \/ leb (of_Z 10800) r = true \/
         ltb (of_Z 60) r = true /\ ltb r (of_Z 10800) = true) /\
        is_nan t = false /\
        leb (of_Z 60) t = true /\
        leb t (of_Z 10800) = true) /\
  travelTimeSeconds (of_Z 1000) = of_Z 10800 /\
  travelTimeSeconds (of_Z 0) = of_Z 60 /\
  travelTimeSeconds (of_Z 30) = of_Z 1800.
Proof.
  split; [|repeat split; vm_compute; reflexivity].
  intros req env now net cache p Hin.
  destruct (POST_calls req env now net cache) as [H|(raw & b & Hreq & Hv & H)];
    rewrite H in Hin; simpl in Hin; [contradiction|].
  destruct Hin as [<-|[]]. exists raw, b.
  split; [exact Hreq|]. split; [exact Hv|]. cbv zeta.
  destruct (validate_finite raw b Hv) as (_ & _ & Hfin).
  change (travel_time (payload b)) with (travelTimeSeconds (minutes b)).
  assert (Hr : is_nan (Math_round (mul (minutes b) (of_Z 60))) = false)
    by (apply Math_round_not_nan, mul_finite_not_nan; [exact Hfin|reflexivity]).
  destruct (clamp_value _ Hr) as (Hlow & Hhigh & Hmid & Hall).
  destruct (travelTimeSeconds_bounds (minutes b) Hfin) as (Hn & Hlo & Hhi).
  unfold travelTimeSeconds.
  split; [exact Hlow|]. split; [exact Hhigh|]. split; [exact Hmid|].
  split; [exact Hall|]. split; [exact Hn|]. split; [exact Hlo|exact Hhi].
Qed.

End WithBuiltins.

Import Samples.

Lemma travel_time_clamped_witness :
  let run := Route.POST no_fraction string parse_object
               (JsonObject (raw (dalhousie 30))) env 1000
               net_ok ∅ in
  In (payload (dalhousie 30)) (snd run) /\
  travel_time (payload (dalhousie 30)) = of_Z 1800.
Proof.
  assert (Hin : In (payload (dalhousie 30))
                  (snd (Route.POST no_fraction string parse_object
                          (JsonObject (raw (dalhousie 30))) env 1000
                          net_ok ∅)))
    by (vm_compute; left; reflexivity).
  split; [exact Hin|].
  destruct (proj1 (travel_time_clamped no_fraction string parse_object)
              _ _ _ _ _ _ Hin) as (raw0 & b & Hreq & Hv & _ & _ & Hmid & _).
  injection Hreq as <-.
  assert (Hb : validate (raw (dalhousie 30)) = Some (dalhousie 30)) by reflexivity.
  rewrite Hb in Hv. injection Hv as <-.
  assert (H60 : ltb (of_Z 60) (Math_round (mul (minutes (dalhousie 30)) (of_Z 60))) = true)
    by (vm_compute; reflexivity).
  assert (H10800 : ltb (Math_round (mul (minutes (dalhousie 30)) (of_Z 60))) (of_Z 10800)
                   = true)
    by (vm_compute; reflexivity).
  rewrite (Hmid H60 H10800). vm_compute. reflexivity.
Defined.


(** C6, as stated, fails: two latitudes with the same sign and the same first
    five decimals, less than 10^-5 apart, on either side of a rounding
    boundary (0.0000038... and 0.0000076...) give the keys ["0.00000,..."] and
    ["0.00001,..."]. *)
Lemma cacheKey_beyond_precision_counterexample :
  ~ (forall (toString_other : number -> string) (b1 b2 : IsochroneRequest),
        differ_beyond_precision (lat b1) (lat b2) ->
        differ_beyond_precision (lng b1) (lng b2) ->
        arriveByISO b1 = arriveByISO b2 ->
        minutes b1 = minutes b2 ->
        mode b1 = mode b2 ->
        cacheKey toString_other b1 = cacheKey toString_other b2).
Proof.
  intros H.
  specialize (H no_fraction (at_latitude click_a) (at_latitude click_b)).
  assert (Hlat : differ_beyond_precision click_a click_b)
    by (unfold differ_beyond_precision; repeat split).
  assert (Hlng : differ_beyond_precision (lng (dalhousie 30)) (lng (dalhousie 30)))
    by (unfold differ_beyond_precision; repeat split).
  specialize (H Hlat Hlng eq_refl eq_refl eq_refl).
  vm_compute in H. discriminate.
Qed.

Lemma cacheKey_same_rounding_witness :
  same_rounding click_c click_d /\
  cacheKey no_fraction (at_latitude click_c) = cacheKey no_fraction (at_latitude click_d).
Proof.
  assert (Hlat : same_rounding click_c click_d).
  { split; [reflexivity|]. exists 4463670.
    unfold rounds_to; repeat split; vm_compute; congruence. }
  assert (Hlng : same_rounding (lng (dalhousie 30)) (lng (dalhousie 30))).
  { split; [reflexivity|]. exists 6359520.
    unfold rounds_to; repeat split; vm_compute; congruence. }
  split; [exact Hlat|].
  exact (cacheKey_same_rounding no_fraction (at_latitude click_c) (at_latitude click_d)
           Hlat Hlng eq_refl eq_refl eq_refl).
Defined.

Lemma cache_lookup_ttl_witness :
  validate (raw (dalhousie 30)) = Some (dalhousie 30) /\
  one_entry !! cacheKey no_fraction (dalhousie 30) = Some cached_entry /\
  1000 < expiresAt cached_entry /\
  Route.POST no_fraction string parse_object (JsonObject (raw (dalhousie 30))) env 1000
    net_ok one_entry =
    ({| status := 200; body := DataBody (Text "cached") |}, one_entry, []).
Proof.
  assert (Hv : validate (raw (dalhousie 30)) = Some (dalhousie 30))
    by (vm_compute; reflexivity).
  assert (Hh : one_entry !! cacheKey no_fraction (dalhousie 30) = Some cached_entry)
    by (vm_compute; reflexivity).
  assert (Hlt : 1000 < expiresAt cached_entry) by (simpl; lia).
  split; [exact Hv|]. split; [exact Hh|]. split; [exact Hlt|].
  exact (proj1 (cache_lookup_ttl no_fraction string parse_object
                  (raw (dalhousie 30)) (dalhousie 30) env 1000 net_ok one_entry
                  Hv eq_refl eq_refl) cached_entry Hh Hlt).
Defined.

Lemma failed_fetch_leaves_cache_witness :
  let run := Route.POST no_fraction string parse_object (JsonObject (raw (dalhousie 30)))
               env 9000 net_quota one_entry in
  In (payload (dalhousie 30)) (snd run) /\
  ok quota_response = false /\
  status (fst (fst run)) = 502 /\
  snd (fst run) = one_entry.
Proof.
  assert (Hin : In (payload (dalhousie 30))
                  (snd (Route.POST no_fraction string parse_object
                          (JsonObject (raw (dalhousie 30))) env 9000 net_quota one_entry)))
    by (vm_compute; left; reflexivity).
  pose proof (failed_fetch_leaves_cache no_fraction string parse_object
                (JsonObject (raw (dalhousie 30))) env 9000 net_quota one_entry
                (payload (dalhousie 30)) quota_response Hin eq_refl (or_introl eq_refl))
    as (Hs & _ & Hc).
  split; [exact Hin|]. split; [reflexivity|]. split; [exact Hs|exact Hc].
Defined.

Lemma cache_written_only_on_success_witness :
  let run := Route.POST no_fraction string parse_object (JsonObject (raw (dalhousie 30)))
               env 1000 net_ok one_entry in
  snd run = [] /\ snd (fst run) = one_entry.
Proof.
  assert (Hcalls : snd (Route.POST no_fraction string parse_object
                          (JsonObject (raw (dalhousie 30))) env 1000 net_ok one_entry) = [])
    by (vm_compute; reflexivity).
  split; [exact Hcalls|].
  exact (proj1 (proj2 (proj2 (cache_written_only_on_success no_fraction string parse_object
                                (JsonObject (raw (dalhousie 30))) env 1000 net_ok one_entry)))
           Hcalls).
Defined.

Lemma raw_minutes_in_cache_key_witness :
  validate (raw (dalhousie 200)) = Some (dalhousie 200) /\
  validate (raw (dalhousie 1000)) = Some (dalhousie 1000) /\
  payload (dalhousie 200) = payload (dalhousie 1000) /\
  cacheKey no_fraction (dalhousie 200) <> cacheKey no_fraction (dalhousie 1000).
Proof.
  assert (Hv1 : validate (raw (dalhousie 200)) = Some (dalhousie 200))
    by (vm_compute; reflexivity).
  assert (Hv2 : validate (raw (dalhousie 1000)) = Some (dalhousie 1000))
    by (vm_compute; reflexivity).
  pose proof (raw_minutes_in_cache_key no_fraction string parse_object
                (raw (dalhousie 200)) (raw (dalhousie 1000))
                (dalhousie 200) (dalhousie 1000) env
                Hv1 Hv2 eq_refl eq_refl eq_refl eq_refl eq_refl eq_refl eq_refl eq_refl)
    as (_ & _ & Hp & Hkey & _).
  split; [exact Hv1|]. split; [exact Hv2|]. split; [exact Hp|exact Hkey].
Defined.

(** The route on the sample request, evaluated. *)
Example cacheKey_dalhousie :
  cacheKey no_fraction (dalhousie 30) =
    "44.63670,-63.59520|2026-01-05T08:30:00-04:00|30|public_transport".
Proof. vm_compute. reflexivity. Qed.

Example travelTimeSeconds_half_hour : travelTimeSeconds (of_Z 30) = of_Z 1800.
Proof. vm_compute. reflexivity. Qed.

Example keys_of_neighbouring_clicks :
  cacheKey no_fraction (at_latitude click_a) =
    "0.00000,-63.59520|2026-01-05T08:30:00-04:00|30|public_transport" /\
  cacheKey no_fraction (at_latitude click_b) =
    "0.00001,-63.59520|2026-01-05T08:30:00-04:00|30|public_transport".
Proof. split; vm_compute; reflexivity. Qed.

(** A body that is never parsed cannot fail to parse: with a content type
    that does not mention JSON, the text of a successful response is stored
    and returned as it is. *)
Example unparsed_text_is_stored :
  Route.POST no_fraction string parse_object (JsonObject (raw (dalhousie 30))) env 1000
    (fun _ => FetchResolves plain_response) ∅ =
    ({| status := 200; body := DataBody (Text "busy") |},
     <[ cacheKey no_fraction (dalhousie 30) :=
          {| expiresAt := 601000; geojson := Text "busy" |} ]> ∅,
     [payload (dalhousie 30)]).
Proof.
  apply (POST_stores no_fraction string parse_object (raw (dalhousie 30))
           (dalhousie 30) env 1000 _ ∅ plain_response (Text "busy"));
    vm_compute; reflexivity.
Qed.

End RouteFacts.

(** ** The matcher *)
Module PageFacts.
Import JSNumber JSString Page NumberFacts.

(** *** The [Map] keeps one entry per key, in order of first insertion *)

Lemma Map_set_keys k v m :
  (In k (map fst m) /\ map fst (Map_set k v m) = map fst m) \/
  (~ In k (map fst m) /\ map fst (Map_set k v m) = map fst m ++ [k]).
Proof.
  induction m as [|[k' v'] m IH]; simpl.
  - right. tauto.
  - destruct (String.eqb k k') eqn:E.
    + apply String.eqb_eq in E as ->. left. simpl. auto.
    + apply String.eqb_neq in E. simpl.
      destruct IH as [[Hin ->]|[Hnin ->]]; [left|right]; split; auto.
      intros [?|?]; congruence.
Qed.

Lemma Map_set_NoDup k v m :
  List.NoDup (map fst m) -> List.NoDup (map fst (Map_set k v m)).
Proof.
  intros H. destruct (Map_set_keys k v m) as [[_ ->]|[Hnin ->]]; [exact H|].
  apply NoDup_ListNoDup. apply NoDup_ListNoDup in H.
  apply NoDup_app. repeat split; [exact H| |apply NoDup_singleton].
  intros x Hx Hk%list_elem_of_singleton. subst. apply Hnin, list_elem_of_In, Hx.
Qed.

Lemma Map_set_In_key k v m x :
  In x (map fst (Map_set k v m)) <-> x = k \/ In x (map fst m).
Proof.
  destruct (Map_set_keys k v m) as [[Hin ->]|[Hnin ->]].
  - split; [tauto|]. intros [->|H]; assumption.
  - rewrite in_app_iff. simpl. intuition congruence.
Qed.

Lemma Map_set_In k v m x :
  In x (Map_set k v m) -> x = (k, v) \/ (fst x = k /\ snd x = v) \/ In x m.
Proof.
  induction m as [|[k' v'] m IH]; simpl.
  - intros [<-|[]]. auto.
  - destruct (String.eqb k k') eqn:E.
    + apply String.eqb_eq in E as ->. intros [<-|H]; auto.
    + intros [<-|H]; [auto|]. destruct (IH H) as [?|[?|?]]; auto.
Qed.

Lemma Map_fold_NoDup es : forall m,
  List.NoDup (map fst m) ->
  List.NoDup (map fst (fold_left (fun m kv => Map_set (fst kv) (snd kv) m) es m)).
Proof.
  induction es as [|e es IH]; intros m H; simpl; [exact H|].
  apply IH, Map_set_NoDup, H.
Qed.

Lemma Map_fold_In_key es x : forall m,
  In x (map fst (fold_left (fun m kv => Map_set (fst kv) (snd kv) m) es m)) <->
  In x (map fst m) \/ In x (map fst es).
Proof.
  induction es as [|e es IH]; intros m; simpl; [tauto|].
  rewrite IH, Map_set_In_key. intuition congruence.
Qed.

Lemma Map_fold_In es x : forall m,
  In x (fold_left (fun m kv => Map_set (fst kv) (snd kv) m) es m) ->
  (exists e, In e (m ++ es) /\ fst x = fst e /\ snd x = snd e).
Proof.
  induction es as [|e es IH]; intros m; simpl.
  - intros H. exists x. rewrite app_nil_r. auto.
  - intros H. destruct (IH _ H) as (e' & He' & Hk & Hv).
    apply in_app_iff in He' as [He'|He'].
    + apply Map_set_In in He' as [->|[[Hk' Hv']|He']].
      * exists e. split; [apply in_app_iff; simpl; auto|]. simpl in *. auto.
      * exists e. split; [apply in_app_iff; simpl; auto|]. split; congruence.
      * exists e'. split; [apply in_app_iff; auto|]. auto.
    + exists e'. split; [apply in_app_iff; simpl; auto|]. auto.
Qed.

(** The values of the map built from the hits are hits, one per name. *)
Lemma Map_new_hits (hits : list CommunityHit) :
  let vs := Map_values (Map_new (map (fun h => (name h, h)) hits)) in
  List.NoDup (map name vs) /\
  (forall n, In n (map name vs) <-> In n (map name hits)) /\
  (forall h, In h vs -> In h hits).
Proof.
  unfold Map_values, Map_new. simpl.
  set (es := map (fun h => (name h, h)) hits).
  set (m := fold_left _ es []).
  assert (Hval : forall kv, In kv m -> In (snd kv) hits /\ fst kv = name (snd kv)).
  { intros kv Hkv. apply Map_fold_In in Hkv as (e & He & Hk & Hv). simpl in He.
    unfold es in He. apply in_map_iff in He as (h & <- & Hh). simpl in *.
    rewrite Hk, Hv. auto. }
  assert (Hkeys : map name (map snd m) = map fst m).
  { rewrite map_map. apply map_ext_in. intros kv Hkv.
    symmetry. apply (Hval kv Hkv). }
  rewrite Hkeys. split; [|split].
  - apply Map_fold_NoDup. constructor.
  - intros n. unfold m. rewrite Map_fold_In_key. simpl.
    unfold es. rewrite map_map. simpl. tauto.
  - intros h Hh. apply in_map_iff in Hh as (kv & <- & Hkv). apply (Hval kv Hkv).
Qed.

(** *** Insertion sort *)
Section SortFacts.
Variable compareFn : CommunityHit -> CommunityHit -> Z.
Hypothesis compareFn_total : forall a b, compareFn a b <= 0 \/ compareFn b a <= 0.
Hypothesis compareFn_trans :
  forall a b c, compareFn a b <= 0 -> compareFn b c <= 0 -> compareFn a c <= 0.

Local Abbreviation le := (fun a b => compareFn a b <= 0).

Lemma insert_perm x l : Permutation (insert compareFn x l) (x :: l).
Proof.
  induction l as [|y l IH]; simpl; [reflexivity|].
  destruct (compareFn x y <=? 0); [reflexivity|].
  rewrite IH. apply perm_swap.
Qed.

Lemma sort_perm l : Permutation (sort compareFn l) l.
Proof.
  induction l as [|x l IH]; simpl; [reflexivity|].
  rewrite insert_perm, IH. reflexivity.
Qed.

Lemma insert_sorted x l :
  StronglySorted le l -> StronglySorted le (insert compareFn x l).
Proof.
  induction 1 as [|y l Hl IH Hy]; simpl.
  - repeat constructor.
  - destruct (compareFn x y <=? 0) eqn:E.
    + apply Z.leb_le in E. constructor; [constructor; assumption|].
      constructor; [exact E|].
      eapply Forall_impl; [exact Hy|]. intros z Hz. simpl in *. eauto.
    + apply Z.leb_gt in E. constructor; [exact IH|].
      rewrite (insert_perm x l). constructor; [|exact Hy].
      destruct (compareFn_total x y); [lia|assumption].
Qed.

Lemma sort_sorted l : StronglySorted le (sort compareFn l).
Proof.
  induction l as [|x l IH]; simpl; [constructor|]. apply insert_sorted, IH.
Qed.

End SortFacts.

(** *** The loop and the effect, run *)
Section MatchingFacts.
Variable Geometry : Type.
Variable Point : Type.
Variable exn : Type.
Variable turf_combine : FeatureCollection Geometry -> FeatureCollection Geometry.
Variable turf_bbox : Feature Geometry -> BBox.
Variable turf_centroid : Feature Geometry -> result exn Point.
Variable turf_booleanPointInPolygon : Point -> Feature Geometry -> result exn bool.
Variable localeCompare : string -> string -> Z.

Local Abbreviation loop :=
  (loop Geometry Point exn turf_bbox turf_centroid turf_booleanPointInPolygon).
Local Abbreviation insideTest :=
  (insideTest Geometry Point exn turf_centroid turf_booleanPointInPolygon).
Local Abbreviation inside :=
  (inside Geometry Point exn turf_centroid turf_booleanPointInPolygon).
Local Abbreviation insideThrows :=
  (insideThrows Geometry Point exn turf_centroid turf_booleanPointInPolygon).
Local Abbreviation prefilter := (prefilter Geometry turf_bbox).
Local Abbreviation matched :=
  (matched Geometry Point exn turf_bbox turf_centroid turf_booleanPointInPolygon).
Local Abbreviation candidateEvents :=
  (candidateEvents Geometry Point exn turf_bbox turf_centroid).
Local Abbreviation loopEvents := (loopEvents Geometry Point exn turf_bbox turf_centroid).
Local Abbreviation isoFeatureOf := (isoFeatureOf Geometry turf_combine).
Local Abbreviation matchedCandidates :=
  (matchedCandidates Geometry Point exn turf_combine turf_bbox turf_centroid
     turf_booleanPointInPolygon).
Local Abbreviation runEvents :=
  (runEvents Geometry Point exn turf_combine turf_bbox turf_centroid).
Local Abbreviation uniq := (uniq localeCompare).
Local Abbreviation computeWithin :=
  (computeWithin Geometry Point exn turf_combine turf_bbox turf_centroid
     turf_booleanPointInPolygon localeCompare).

(** The guarded centroid test never throws: it returns what [inside] says. *)
Lemma insideTest_run isoFeature f log :
  insideTest isoFeature f log =
    (Ok (inside isoFeature f),
     log ++ EvCentroid f ::
       match turf_centroid f with
       | Ok c => [EvPointInPolygon c isoFeature]
       | Throw _ => []
       end).
Proof.
  unfold insideTest, Page.insideTest, inside, Page.inside, try_catch, bind, centroid,
    booleanPointInPolygon, call, ret.
  destruct (turf_centroid f) as [c|e]; simpl.
  - destruct (turf_booleanPointInPolygon c isoFeature) as [b|e]; simpl;
      rewrite <- app_assoc; reflexivity.
  - reflexivity.
Qed.

Lemma loop_run isoFeature isoBbox mode fs : forall hits log,
  loop isoFeature isoBbox mode fs hits log =
    (Ok (hits ++ map (hit mode) (List.filter (matched isoFeature isoBbox) fs)),
     log ++ loopEvents isoFeature isoBbox fs).
Proof.
  induction fs as [|f fs IH]; intros hits log; simpl.
  - unfold ret. rewrite !app_nil_r. reflexivity.
  - unfold matched, Page.matched, prefilter, Page.prefilter, loopEvents, Page.loopEvents,
      candidateEvents, Page.candidateEvents. simpl.
    destruct (geometry f) as [g|]; simpl; [|apply IH].
    unfold bind at 1, bbox, call. simpl.
    destruct (bboxIntersects (turf_bbox f) isoBbox); simpl.
    + unfold bind at 1. fold insideTest. rewrite insideTest_run.
      fold inside.
      destruct (inside isoFeature f); simpl; rewrite IH; f_equal;
        rewrite <- ?app_assoc; reflexivity.
    + rewrite IH. f_equal. rewrite <- app_assoc. reflexivity.
Qed.

(** The effect returns the de-duplicated, sorted hits of the matched
    candidates, and makes the calls listed by [runEvents]. *)
Lemma computeWithin_run iso comm mode log :
  computeWithin iso comm mode log =
    (Ok (uniq (map (hit mode) (matchedCandidates iso comm))), log ++ runEvents iso comm).
Proof.
  unfold computeWithin, Page.computeWithin, matchedCandidates, Page.matchedCandidates,
    runEvents, Page.runEvents, isoFeatureOf, Page.isoFeatureOf.
  destruct iso as [iso|], comm as [comm|]; simpl;
    try (unfold ret; rewrite app_nil_r; reflexivity).
  unfold bind at 1, combine, call. simpl.
  destruct (head (default [] (features (turf_combine iso)))) as [isoFeature|]; simpl.
  - unfold bind at 1, bbox, call. simpl. unfold bind. rewrite loop_run. simpl.
    unfold ret. f_equal. rewrite <- !app_assoc. reflexivity.
  - unfold ret. reflexivity.
Qed.

Lemma matched_prefilter isoFeature isoBbox f :
  matched isoFeature isoBbox f = true ->
  geometry f <> None /\ bboxIntersects (turf_bbox f) isoBbox = true /\
  inside isoFeature f = true.
Proof.
  unfold matched, Page.matched, prefilter, Page.prefilter.
  intros [H1 H2]%andb_true_iff. destruct (geometry f); [|discriminate]. auto.
Qed.

Lemma insideThrows_not_inside isoFeature f :
  insideThrows isoFeature f -> inside isoFeature f = false.
Proof.
  unfold insideThrows, Page.insideThrows, inside, Page.inside.
  intros [[e ->]|(c & e & -> & ->)]; reflexivity.
Qed.

Lemma loopEvents_centroid isoFeature isoBbox fs f :
  In (EvCentroid f) (loopEvents isoFeature isoBbox fs) ->
  In f fs /\ geometry f <> None /\ bboxIntersects (turf_bbox f) isoBbox = true.
Proof.
  unfold loopEvents, Page.loopEvents. rewrite in_flat_map.
  intros (f' & Hf' & Hev). unfold Page.candidateEvents in Hev.
  destruct (geometry f') as [g|] eqn:Hg; [|contradiction].
  destruct Hev as [Hev|Hev]; [discriminate|].
  destruct (bboxIntersects (turf_bbox f') isoBbox) eqn:Hb; [|contradiction].
  destruct Hev as [Hev|Hev].
  - injection Hev as <-. rewrite Hg. repeat split; auto; discriminate.
  - destruct (turf_centroid f'); [destruct Hev as [Hev|[]]; discriminate|contradiction].
Qed.

Lemma loopEvents_pointInPolygon isoFeature isoBbox fs c region :
  In (EvPointInPolygon c region) (loopEvents isoFeature isoBbox fs) ->
  exists f, In f fs /\ bboxIntersects (turf_bbox f) isoBbox = true /\
            turf_centroid f = Ok c /\ region = isoFeature.
Proof.
  unfold loopEvents, Page.loopEvents. rewrite in_flat_map.
  intros (f' & Hf' & Hev). unfold Page.candidateEvents in Hev.
  destruct (geometry f') as [g|] eqn:Hg; [|contradiction].
  destruct Hev as [Hev|Hev]; [discriminate|].
  destruct (bboxIntersects (turf_bbox f') isoBbox) eqn:Hb; [|contradiction].
  destruct Hev as [Hev|Hev]; [discriminate|].
  destruct (turf_centroid f') as [c'|e] eqn:Hc; [|contradiction].
  destruct Hev as [Hev|[]]. injection Hev as <- <-.
  exists f'. auto.
Qed.

(** C1. The effect returns a list; the names in it are pairwise distinct and
    are exactly the resolved names of the matched candidates; each entry is
    the hit of the first matched candidate with that name; and the list is
    ordered by [localeCompare] on the names (for a [localeCompare] that is a
    total preorder). *)
Theorem within_unique_sorted iso comm mode log :
  (forall a b, localeCompare a b <= 0 \/ localeCompare b a <= 0) ->
  (forall a b c, localeCompare a b <= 0 -> localeCompare b c <= 0 ->
                 localeCompare a c <= 0) ->
  exists l log',
    computeWithin iso comm mode log = (Ok l, log') /\
    List.NoDup (map name l) /\
    (forall n, In n (map name l) <->
               exists f, In f (matchedCandidates iso comm) /\
                         pickCommunityName (props f) = n) /\
    (forall h, In h l ->
               exists f,
                 List.find (fun f => String.eqb (pickCommunityName (props f)) (name h))
                   (matchedCandidates iso comm) = Some f /\
                 h = hit mode f) /\
    StronglySorted (fun a b => localeCompare (name a) (name b) <= 0) l.
Proof.
  intros Htotal Htrans. rewrite computeWithin_run.
  eexists. eexists. split; [reflexivity|].
  set (mc := matchedCandidates iso comm).
  set (hits := map (hit mode) mc).
  unfold uniq, Page.uniq.
  set (cmp := fun a b : CommunityHit => localeCompare (name a) (name b)).
  set (vs := Map_values (Map_new (map (fun h => (name h, h)) hits))).
  destruct (Map_new_hits hits) as (Hnd & Hnames & Hin). fold vs in Hnd, Hnames, Hin.
  pose proof (sort_perm cmp vs) as Hperm.
  assert (Hhits : forall h, In h hits <-> exists f, In f mc /\ h = hit mode f).
  { intros h. unfold hits. rewrite in_map_iff. split; intros (f & H1 & H2); exists f; auto. }
  split; [|split; [|split]].
  - apply NoDup_ListNoDup. rewrite Hperm. apply NoDup_ListNoDup, Hnd.
  - intros n. rewrite Hperm, Hnames. unfold hits. rewrite map_map. simpl.
    rewrite in_map_iff. split; intros (f & H1 & H2); exists f; auto.
  - intros h Hh.
    assert (Hv : In h vs) by (apply list_elem_of_In; rewrite <- Hperm; apply list_elem_of_In, Hh).
    apply Hin, Hhits in Hv as (f' & Hf' & ->). simpl.
    destruct (List.find _ mc) as [f|] eqn:Hfind.
    + exists f. split; [reflexivity|].
      apply find_some in Hfind as [_ E]. apply String.eqb_eq in E.
      unfold hit. rewrite E. reflexivity.
    + apply (find_none _ _ Hfind) in Hf'. rewrite String.eqb_refl in Hf'. discriminate.
  - apply (sort_sorted cmp); unfold cmp; eauto.
Qed.


Lemma runEvents_loop iso comm ev :
  In ev (runEvents iso comm) ->
  (exists fc, ev = EvCombine fc) \/ (exists f, ev = EvBbox f) \/
  exists fc isoFeature cs,
    iso = Some fc /\ isoFeatureOf fc = Some isoFeature /\
    comm = Some cs /\
    In ev (loopEvents isoFeature (turf_bbox isoFeature) (default [] (features cs))).
Proof.
  unfold runEvents, Page.runEvents.
  destruct iso as [fc|], comm as [cs|]; simpl; try contradiction.
  intros [<-|Hev]; [left; eauto|].
  destruct (Page.isoFeatureOf _ _ fc) as [isoFeature|] eqn:Hiso; [|contradiction].
  destruct Hev as [<-|Hev]; [right; left; eauto|].
  right. right. exists fc, isoFeature, cs. auto.
Qed.

(** C3. Only candidates whose box passes the overlap test reach
    [turf.centroid] and [turf.booleanPointInPolygon]; a candidate whose box
    fails it is neither tested nor matched; the test fails exactly when one
    box is entirely to one side of the other on an axis; and it passes for
    every two boxes that share a point, edges included. *)
Theorem prefilter_before_centroid iso comm mode :
  let log := snd (computeWithin iso comm mode []) in
  (forall f, In (EvCentroid f) log ->
     exists fc isoFeature,
       iso = Some fc /\ isoFeatureOf fc = Some isoFeature /\
       bboxIntersects (turf_bbox f) (turf_bbox isoFeature) = true) /\
  (forall c region, In (EvPointInPolygon c region) log ->
     exists fc f,
       iso = Some fc /\ isoFeatureOf fc = Some region /\
       bboxIntersects (turf_bbox f) (turf_bbox region) = true /\
       turf_centroid f = Ok c) /\
  (forall fc isoFeature f,
     iso = Some fc -> isoFeatureOf fc = Some isoFeature ->
     bboxIntersects (turf_bbox f) (turf_bbox isoFeature) = false ->
     ~ In (EvCentroid f) log /\ ~ In f (matchedCandidates iso comm)) /\
  (forall a b, bboxIntersects a b = false <-> apart a b) /\
  (forall a b x y, inBox x y a -> inBox x y b -> bboxIntersects a b = true).
Proof.
  simpl. rewrite computeWithin_run. simpl.
  assert (HA : forall f, In (EvCentroid f) (runEvents iso comm) ->
     exists fc isoFeature,
       iso = Some fc /\ isoFeatureOf fc = Some isoFeature /\
       bboxIntersects (turf_bbox f) (turf_bbox isoFeature) = true).
  { intros f Hev.
    apply runEvents_loop in Hev as [[fc H]|[[f' H]|(fc & isoF & cs & -> & Hiso & -> & Hev)]];
      try discriminate.
    apply loopEvents_centroid in Hev as (_ & _ & Hb). eauto. }
  split; [exact HA|]. split; [|split; [|split]].
  - intros c region Hev.
    apply runEvents_loop in Hev as [[fc H]|[[f' H]|(fc & isoF & cs & -> & Hiso & -> & Hev)]];
      try discriminate.
    apply loopEvents_pointInPolygon in Hev as (f & _ & Hb & Hc & ->). eauto 10.
  - intros fc isoFeature f -> Hiso Hb. split.
    + intros Hev. destruct (HA f Hev) as (fc' & isoF' & [= <-] & Hiso' & Hb').
      rewrite Hiso in Hiso'. injection Hiso' as <-. congruence.
    + unfold matchedCandidates, Page.matchedCandidates. destruct comm as [cs|]; [|tauto].
      fold isoFeatureOf. rewrite Hiso. intros [_ Hm]%filter_In.
      apply matched_prefilter in Hm as (_ & Hb' & _). congruence.
  - intros a b. unfold bboxIntersects, apart.
    rewrite negb_false_iff, !orb_true_iff. tauto.
  - intros a b x y (Ha1 & Ha2 & Ha3 & Ha4) (Hb1 & Hb2 & Hb3 & Hb4).
    pose proof (leb_not_ltb _ _ (leb_trans _ _ _ Hb1 Ha2)) as H1.
    pose proof (leb_not_ltb _ _ (leb_trans _ _ _ Ha1 Hb2)) as H2.
    pose proof (leb_not_ltb _ _ (leb_trans _ _ _ Hb3 Ha4)) as H3.
    pose proof (leb_not_ltb _ _ (leb_trans _ _ _ Ha3 Hb4)) as H4.
    unfold bboxIntersects, gtb, ltb in *. rewrite H1, H2, H3, H4. reflexivity.
Qed.

(** C4. The effect returns a list for every input and every starting log;
    when [turf.centroid] or [turf.booleanPointInPolygon] throws for a
    candidate, the guarded test answers [false], and the result is what it
    would be with that candidate left out of the collection. *)
Theorem within_never_raises iso comm mode log :
  (exists l log', computeWithin iso comm mode log = (Ok l, log')) /\
  (forall isoFeature f log1,
     insideThrows isoFeature f -> fst (insideTest isoFeature f log1) = Ok false) /\
  (forall fc isoFeature cs1 f cs2,
     isoFeatureOf fc = Some isoFeature ->
     insideThrows isoFeature f ->
     fst (computeWithin (Some fc) (Some {| features := Some (cs1 ++ f :: cs2) |}) mode log) =
     fst (computeWithin (Some fc) (Some {| features := Some (cs1 ++ cs2) |}) mode log)).
Proof.
  split; [|split].
  - rewrite computeWithin_run. eauto.
  - intros isoFeature f log1 Hthrow. rewrite insideTest_run. simpl.
    rewrite (insideThrows_not_inside _ _ Hthrow). reflexivity.
  - intros fc isoFeature cs1 f cs2 Hiso Hthrow. rewrite !computeWithin_run. simpl.
    unfold matchedCandidates, Page.matchedCandidates. fold isoFeatureOf. rewrite Hiso.
    simpl. rewrite !List.filter_app. simpl.
    unfold Page.matched at 2. fold inside.
    rewrite (insideThrows_not_inside _ _ Hthrow), andb_false_r. reflexivity.
Qed.

End MatchingFacts.

Import PageSamples.

Lemma codeUnitCompare_le a b : codeUnitCompare a b <= 0 <-> String.le a b.
Proof.
  unfold codeUnitCompare, String.le, String.leb.
  destruct (String.compare a b); simpl; split; intros; try lia; try exact I; contradiction.
Qed.

Lemma codeUnitCompare_total a b : codeUnitCompare a b <= 0 \/ codeUnitCompare b a <= 0.
Proof. rewrite !codeUnitCompare_le. apply String.le_total. Qed.

Lemma codeUnitCompare_trans a b c :
  codeUnitCompare a b <= 0 -> codeUnitCompare b c <= 0 -> codeUnitCompare a c <= 0.
Proof. rewrite !codeUnitCompare_le. intros H1 H2. by etrans. Qed.

Lemma within_unique_sorted_witness :
  (forall a b, codeUnitCompare a b <= 0 \/ codeUnitCompare b a <= 0) /\
  (forall a b c, codeUnitCompare a b <= 0 -> codeUnitCompare b c <= 0 ->
                 codeUnitCompare a c <= 0) /\
  exists l log',
    run (Some catchment) (Some communities) "public_transport" = (Ok l, log') /\
    List.NoDup (map name l) /\
    StronglySorted (fun a b => codeUnitCompare (name a) (name b) <= 0) l.
Proof.
  split; [exact codeUnitCompare_total|]. split; [exact codeUnitCompare_trans|].
  destruct (within_unique_sorted Rect (number * number) string rectCombine rectBbox
              rectCentroid rectContains codeUnitCompare
              (Some catchment) (Some communities) "public_transport" []
              codeUnitCompare_total codeUnitCompare_trans)
    as (l & log' & Hrun & Hnd & _ & _ & Hsorted).
  exists l, log'. split; [exact Hrun|]. split; [exact Hnd|exact Hsorted].
Defined.


Lemma prefilter_before_centroid_witness :
  inBox (of_Z 10) (of_Z 10) (square 0 10) /\
  inBox (of_Z 10) (of_Z 10) (square 10 20) /\
  bboxIntersects (square 0 10) (square 10 20) = true.
Proof.
  assert (Ha : inBox (of_Z 10) (of_Z 10) (square 0 10))
    by (unfold inBox; repeat split; vm_compute; reflexivity).
  assert (Hb : inBox (of_Z 10) (of_Z 10) (square 10 20))
    by (unfold inBox; repeat split; vm_compute; reflexivity).
  split; [exact Ha|]. split; [exact Hb|].
  exact (proj2 (proj2 (proj2 (proj2
           (prefilter_before_centroid Rect (number * number) string rectCombine rectBbox
              rectCentroid rectContains codeUnitCompare
              (Some catchment) (Some communities) "public_transport"))))
           (square 0 10) (square 10 20) (of_Z 10) (of_Z 10) Ha Hb).
Defined.

Lemma within_never_raises_witness :
  let isoFeature := {| geometry := Some {| box := square 0 10; centre := None |};
                       props := NotAnObject |} in
  isoFeatureOf Rect rectCombine catchment = Some isoFeature /\
  insideThrows Rect (number * number) string rectCentroid rectContains isoFeature dartmouth /\
  fst (run (Some catchment)
         (Some {| features := Some ([halifax; bedford; halifax_again]
                                     ++ dartmouth :: [nowhere; armdale]) |})
         "public_transport") =
  fst (run (Some catchment)
         (Some {| features := Some ([halifax; bedford; halifax_again]
                                     ++ [nowhere; armdale]) |})
         "public_transport").
Proof.
  set (isoFeature := {| geometry := Some {| box := square 0 10; centre := None |};
                        props := NotAnObject |}).
  assert (Hiso : isoFeatureOf Rect rectCombine catchment = Some isoFeature) by reflexivity.
  assert (Hthrow : insideThrows Rect (number * number) string rectCentroid rectContains
                     isoFeature dartmouth)
    by (left; exists "no centre"; reflexivity).
  split; [exact Hiso|]. split; [exact Hthrow|].
  exact (proj2 (proj2 (within_never_raises Rect (number * number) string rectCombine
                         rectBbox rectCentroid rectContains codeUnitCompare
                         (Some catchment) (Some communities) "public_transport" []))
           catchment isoFeature [halifax; bedford; halifax_again] dartmouth
           [nowhere; armdale] Hiso Hthrow).
Defined.

(** The matcher on the sample collection: Bedford is outside the box of the
    catchment, Dartmouth has no centre, the two Halifax areas collapse. *)
Example sample_run :
  fst (run (Some catchment) (Some communities) "public_transport") =
    Ok [ {| name := "Armdale"; mode := "public transport" |};
         {| name := "Halifax"; mode := "public transport" |} ].
Proof. vm_compute. reflexivity. Qed.

End PageFacts.

(** ** More on the route *)
Module RouteMore.
Import JSNumber JSString Route RouteChecks NumberFacts.

Lemma validate_acceptable raw :
  (exists b, validate raw = Some b) <-> acceptable raw = true.
Proof.
  unfold validate, acceptable, isFiniteNumber, isString.
  destruct (raw_lat raw) as [la| |], (raw_lng raw) as [ln| |],
    (raw_arriveByISO raw) as [|a|], (raw_minutes raw) as [mi| |],
    (raw_mode raw) as [|mo|]; simpl;
    try (split; [intros [b H]; discriminate | rewrite ?andb_false_r; discriminate]).
  destruct (Number_isFinite la), (Number_isFinite ln), (Number_isFinite mi); simpl;
    split; try discriminate; try (intros [b H]; discriminate); eauto.
Qed.

Lemma validate_none raw : validate raw = None <-> acceptable raw = false.
Proof.
  pose proof (validate_acceptable raw) as H.
  destruct (validate raw) as [b|], (acceptable raw); split; try discriminate; auto.
  - intros _. assert (false = true) by (apply H; eauto). discriminate.
  - intros _. destruct (proj2 H eq_refl). discriminate.
Qed.

Lemma append_assoc (a b c : string) :
  String.append (String.append a b) c = String.append a (String.append b c).
Proof.
  induction a as [|ch a IH]; [reflexivity|].
  change (String ch (String.append (String.append a b) c) =
          String ch (String.append a (String.append b c))).
  f_equal. exact IH.
Qed.

Lemma length_append (s t : string) :
  String.length (String.append s t) = (String.length s + String.length t)%nat.
Proof.
  induction s as [|c s IH]; [reflexivity|].
  change (S (String.length (String.append s t)) = S (String.length s + String.length t)).
  f_equal. exact IH.
Qed.

Lemma same_number_eq x y : same_number x y = true -> x = y.
Proof.
  destruct x as [s|s| |s m e], y as [t|t| |t n f]; simpl; try discriminate.
  - intros ->%Bool.eqb_prop. reflexivity.
  - intros ->%Bool.eqb_prop. reflexivity.
  - reflexivity.
  - intros [[->%Bool.eqb_prop ->%Pos.eqb_eq]%andb_true_iff ->%Z.eqb_eq]%andb_true_iff.
    reflexivity.
Qed.

Lemma whole_minutes_In lo n m :
  lo <= m < lo + Z.of_nat n -> In m (whole_minutes lo n).
Proof.
  intros H. unfold whole_minutes. apply in_map_iff.
  exists (Z.to_nat (m - lo)). split; [lia|]. apply in_seq. lia.
Qed.

(** X7. For a whole number of minutes from 1 to 180 nothing is clamped or
    rounded away: the travel time is exactly sixty times the minutes. *)
Theorem whole_minutes_exact m :
  1 <= m <= 180 -> travelTimeSeconds (of_Z m) = of_Z (60 * m).
Proof.
  intros H.
  assert (Hall : forallb (fun k => same_number (travelTimeSeconds (of_Z k)) (of_Z (60 * k)))
                   (whole_minutes 1 180) = true) by (vm_compute; reflexivity).
  rewrite forallb_forall in Hall.
  apply same_number_eq, Hall, whole_minutes_In. lia.
Qed.

Lemma whole_minutes_exact_witness :
  1 <= 45 <= 180 /\ travelTimeSeconds (of_Z 45) = of_Z 2700.
Proof. split; [lia|]. exact (whole_minutes_exact 45 ltac:(lia)). Defined.

Lemma ltb_chain_false a b c :
  leb a b = true -> leb b c = true -> leb a c = false -> False.
Proof. intros H1 H2 H3. rewrite (leb_trans _ _ _ H1 H2) in H3. discriminate. Qed.

(** X18. What the clamp does to the rounded product of the minutes by
    sixty: below 60 it gives 60, above 10800 it gives 10800, and strictly in
    between it changes nothing. *)
Theorem clamp_cases mins :
  Number_isFinite mins = true ->
  let r := Math_round (mul mins (of_Z 60)) in
  let t := travelTimeSeconds mins in
  (ltb r (of_Z 60) = true -> t = of_Z 60) /\
  (ltb (of_Z 10800) r = true -> t = of_Z 10800) /\
  (ltb (of_Z 60) r = true -> ltb r (of_Z 10800) = true -> t = r).
Proof.
  intros Hfin. cbv zeta. unfold travelTimeSeconds.
  set (r := Math_round (mul mins (of_Z 60))).
  assert (Hr : is_nan r = false)
    by (apply Math_round_not_nan, mul_finite_not_nan; [exact Hfin|reflexivity]).
  assert (H60 : is_nan (of_Z 60) = false) by reflexivity.
  assert (H10800 : is_nan (of_Z 10800) = false) by reflexivity.
  split; [|split].
  - intros Hlt. pose proof (ltb_leb _ _ Hlt) as Hle.
    assert (Hmin : Math_min r (of_Z 10800) = r).
    { unfold Math_min. rewrite Hr. cbn [is_nan of_Z orb].
      destruct (ltb (of_Z 10800) r) eqn:E1.
      { exfalso. apply (ltb_chain_false _ _ _ (ltb_leb _ _ E1) Hle). reflexivity. }
      destruct (ltb r (of_Z 10800)) eqn:E2; [reflexivity|].
      exfalso. destruct (not_ltb_leb r (of_Z 10800) Hr H10800 E2 E1) as [_ H].
      apply (ltb_chain_false _ _ _ H Hle). reflexivity. }
    rewrite Hmin. unfold Math_max. rewrite Hr. cbn [is_nan of_Z orb].
    rewrite (leb_not_ltb _ _ Hle), Hlt. reflexivity.
  - intros Hlt.
    assert (Hmin : Math_min r (of_Z 10800) = of_Z 10800).
    { unfold Math_min. rewrite Hr. cbn [is_nan of_Z orb]. rewrite Hlt. reflexivity. }
    rewrite Hmin. reflexivity.
  - intros Hlo Hhi.
    assert (Hmin : Math_min r (of_Z 10800) = r).
    { unfold Math_min. rewrite Hr. cbn [is_nan of_Z orb].
      rewrite (leb_not_ltb _ _ (ltb_leb _ _ Hhi)), Hhi. reflexivity. }
    rewrite Hmin. unfold Math_max. rewrite Hr. cbn [is_nan of_Z orb].
    rewrite Hlo. reflexivity.
Qed.

Lemma clamp_cases_witness :
  Number_isFinite (of_Z 200) = true /\
  ltb (of_Z 10800) (Math_round (mul (of_Z 200) (of_Z 60))) = true /\
  travelTimeSeconds (of_Z 200) = of_Z 10800.
Proof.
  split; [reflexivity|].
  assert (H : ltb (of_Z 10800) (Math_round (mul (of_Z 200) (of_Z 60))) = true)
    by (vm_compute; reflexivity).
  split; [exact H|].
  exact (proj1 (proj2 (clamp_cases (of_Z 200) eq_refl)) H).
Defined.

Section WithBuiltins.
Variable toString_other : number -> string.
Variable json : Type.
Variable JSON_parse : string -> option json.

Local Abbreviation cacheKey := (cacheKey toString_other).
Local Abbreviation lookup_or_fetch := (lookup_or_fetch toString_other json JSON_parse).
Local Abbreviation POST := (POST toString_other json JSON_parse).
Local Abbreviation parse_body := (parse_body json JSON_parse).
Local Abbreviation outcome := (outcome toString_other json JSON_parse).
Local Abbreviation lookup_or_fetch_outcome :=
  (RouteFacts.lookup_or_fetch_outcome toString_other json JSON_parse).
Local Abbreviation POST_valid := (RouteFacts.POST_valid toString_other json JSON_parse).
Local Abbreviation POST_stores := (RouteFacts.POST_stores toString_other json JSON_parse).

(** X1. The answer is 400 exactly when the body is [null] or one of its five
    fields fails its check, whatever the environment and the cache hold; and
    a 400 makes no outbound call and leaves the cache alone. *)
Theorem bad_request_iff req env now net cache :
  let run := POST req env now net cache in
  (status (fst (fst run)) = 400 <->
     req = JsonNull \/ exists raw, req = JsonObject raw /\ acceptable raw = false) /\
  (status (fst (fst run)) = 400 -> snd (fst run) = cache /\ snd run = []).
Proof.
  cbv zeta. unfold POST, Route.POST. destruct req as [| |raw]; simpl.
  - split; [split; [discriminate|intros [H|(raw & H & _)]; discriminate]|discriminate].
  - split; [split; auto|auto].
  - destruct (validate raw) as [b|] eqn:Hv.
    + assert (Hacc : acceptable raw = true) by (apply validate_acceptable; eauto).
      assert (Hno : ~ (JsonObject raw = JsonNull \/
                       exists raw', JsonObject raw = JsonObject raw' /\ acceptable raw' = false))
        by (intros [H|(raw' & [= <-] & H)]; congruence).
      destruct (missing _ || missing _); simpl.
      * split; [split; [discriminate|tauto]|discriminate].
      * destruct (lookup_or_fetch_outcome b now net cache); simpl;
          (split; [split; [discriminate|tauto]|discriminate]).
    + simpl. split; [|auto]. split; [|auto]. intros _. right. exists raw.
      split; [reflexivity|]. apply validate_none, Hv.
Qed.

(** X2. A request makes an outbound call exactly when its body validates,
    both credentials are set and the cache holds no unexpired entry under its
    key; the call carries the payload of the body, and there is never more
    than one. *)
Theorem outbound_call_iff req env now net cache :
  let calls := snd (POST req env now net cache) in
  (calls <> [] <->
     exists raw b,
       req = JsonObject raw /\ validate raw = Some b /\
       missing (TRAVELTIME_APP_ID env) = false /\
       missing (TRAVELTIME_API_KEY env) = false /\
       fresh (cache !! cacheKey b) now = None /\
       calls = [payload b]) /\
  (length calls <= 1)%nat.
Proof.
  cbv zeta. unfold POST, Route.POST.
  destruct req as [| |raw];
    try (simpl; split; [split; [congruence|intros (r & b & H & _); discriminate]|lia]).
  destruct (validate raw) as [b|] eqn:Hv;
    [|simpl; split; [split; [congruence|intros (r & b & [= <-] & H & _); congruence]|lia]].
  destruct (missing (TRAVELTIME_APP_ID env)) eqn:Ha; simpl.
  { split; [split; [congruence|intros (r & b' & _ & _ & H & _); discriminate]|lia]. }
  destruct (missing (TRAVELTIME_API_KEY env)) eqn:Hk; simpl.
  { split; [split; [congruence|intros (r & b' & _ & _ & _ & H & _); discriminate]|lia]. }
  destruct (lookup_or_fetch_outcome b now net cache) as [h Hh Hlt|Hf|resp msg up Hf|resp g Hf];
    simpl.
  - split; [|lia]. split; [congruence|].
    intros (r & b' & [= <-] & Hv' & _ & _ & Hf & _).
    rewrite Hv in Hv'. injection Hv' as <-.
    rewrite Hh, (RouteFacts.fresh_unexpired json h now Hlt) in Hf. discriminate.
  - split; [|lia]. split; [|discriminate]. intros _. exists raw, b. auto 10.
  - split; [|lia]. split; [|discriminate]. intros _. exists raw, b. auto 10.
  - split; [|lia]. split; [|discriminate]. intros _. exists raw, b. auto 10.
Qed.

(** X3. The status is 200, 400, 500 or 502; it is 200 exactly when the body
    of the response is the document; and every other status leaves the cache
    as it was, a rejected fetch included. *)
Theorem error_leaves_cache req env now net cache :
  let run := POST req env now net cache in
  let r := fst (fst run) in
  (status r = 200 \/ status r = 400 \/ status r = 500 \/ status r = 502) /\
  (status r = 200 <-> exists g, body r = DataBody g) /\
  (status r <> 200 -> snd (fst run) = cache) /\
  (forall b, net (payload b) = FetchRejects -> snd run = [payload b] ->
             status r = 500 /\ snd (fst run) = cache).
Proof.
  cbv zeta.
  destruct (RouteFacts.POST_cases toString_other json JSON_parse req env now net cache)
    as [[r H]|[b H]].
  - rewrite H. simpl. revert H. unfold POST, Route.POST.
    destruct req as [| |raw]; simpl.
    + intros [= <-]. simpl. repeat split; auto; try discriminate.
      intros [g Hg]. discriminate.
    + intros [= <-]. simpl. repeat split; auto; try discriminate.
      intros [g Hg]. discriminate.
    + destruct (validate raw) as [b|].
      * destruct (missing _ || missing _).
        -- intros [= <-]. simpl. repeat split; auto; try discriminate.
           intros [g Hg]. discriminate.
        -- intros Hl.
           destruct (lookup_or_fetch_outcome b now net cache); injection Hl as <-;
             simpl; repeat split; eauto; try discriminate; try congruence;
             intros [g' Hg]; discriminate.
      * intros [= <-]. simpl. repeat split; auto; try discriminate.
        intros [g Hg]. discriminate.
  - rewrite H.
    destruct (lookup_or_fetch_outcome b now net cache) as [| |resp msg up Hf Hnet|resp g Hf Hnet];
      simpl; repeat split; eauto; try discriminate; try congruence;
      try (intros [g' Hg]; discriminate);
      try (intros b' Hb' [= <-]; congruence).
Qed.

(** X4. After a request has fetched and stored a document at time [now], any
    validated request with the same key that arrives before [now + 600000]
    is answered with that document, makes no outbound call whatever the
    network would say, and leaves the cache alone. *)
Theorem repeat_within_ttl raw1 b1 raw2 b2 env now now' net net' cache resp g :
  validate raw1 = Some b1 ->
  validate raw2 = Some b2 ->
  missing (TRAVELTIME_APP_ID env) = false ->
  missing (TRAVELTIME_API_KEY env) = false ->
  fresh (cache !! cacheKey b1) now = None ->
  net (payload b1) = FetchResolves resp ->
  ok resp = true ->
  parse_body (default EmptyString (content_type resp)) (text resp) = Some g ->
  cacheKey b2 = cacheKey b1 ->
  now' < now + 600000 ->
  let cache1 := snd (fst (POST (JsonObject raw1) env now net cache)) in
  POST (JsonObject raw2) env now' net' cache1 =
    ({| status := 200; body := DataBody g |}, cache1, []).
Proof.
  intros Hv1 Hv2 Ha Hk Hf Hnet Hok Hp Hkey Hlt. cbv zeta.
  rewrite (POST_stores raw1 b1 env now net cache resp g) by assumption. cbn [fst snd].
  rewrite (POST_valid raw2 b2 env) by assumption.
  unfold lookup_or_fetch, Route.lookup_or_fetch. rewrite Hkey, lookup_insert_eq.
  rewrite (RouteFacts.fresh_unexpired json _ now') by (simpl; lia). reflexivity.
Qed.

(** X5. From [now + 600000] on the same request fetches again; when that
    fetch succeeds its document replaces the old one under the same key, with
    the new expiry, and the cache has the same keys as before. *)
Theorem refetch_after_ttl raw b env now now' net net' cache resp g resp' g' :
  validate raw = Some b ->
  missing (TRAVELTIME_APP_ID env) = false ->
  missing (TRAVELTIME_API_KEY env) = false ->
  fresh (cache !! cacheKey b) now = None ->
  net (payload b) = FetchResolves resp ->
  ok resp = true ->
  parse_body (default EmptyString (content_type resp)) (text resp) = Some g ->
  now + 600000 <= now' ->
  net' (payload b) = FetchResolves resp' ->
  ok resp' = true ->
  parse_body (default EmptyString (content_type resp')) (text resp') = Some g' ->
  let cache1 := snd (fst (POST (JsonObject raw) env now net cache)) in
  let run2 := POST (JsonObject raw) env now' net' cache1 in
  snd run2 = [payload b] /\
  fst (fst run2) = {| status := 200; body := DataBody g' |} /\
  snd (fst run2) !! cacheKey b = Some {| expiresAt := now' + 600000; geojson := g' |} /\
  dom (snd (fst run2)) = dom cache1.
Proof.
  intros Hv Ha Hk Hf Hnet Hok Hp Hle Hnet' Hok' Hp'. cbv zeta.
  rewrite (POST_stores raw b env now net cache resp g) by assumption. cbn [fst snd].
  set (cache1 := <[cacheKey b := _]> cache).
  assert (Hf1 : fresh (cache1 !! cacheKey b) now' = None).
  { unfold cache1. rewrite lookup_insert_eq.
    apply RouteFacts.fresh_expired. simpl. lia. }
  rewrite (POST_stores raw b env now' net' cache1 resp' g') by assumption. cbn [fst snd].
  repeat split.
  - apply lookup_insert_eq.
  - unfold cache1. rewrite insert_insert_eq, !dom_insert_L. reflexivity.
Qed.

(** X6. The key joins its fields with [|] and does not escape them: the
    request with arrival time [a|x], minutes [y] and mode [m] has the key of
    the request with arrival time [a], minutes [x] and mode [y|m] (with [x]
    and [y] as printed in the key), although their modes differ. *)
Theorem key_collision la ln a m x y :
  let b1 := {| lat := la; lng := ln;
               arriveByISO := String.append a
                                (String.append "|" (Number_toString toString_other x));
               minutes := y; mode := m |} in
  let b2 := {| lat := la; lng := ln; arriveByISO := a; minutes := x;
               mode := String.append (Number_toString toString_other y)
                         (String.append "|" m) |} in
  cacheKey b1 = cacheKey b2 /\ mode b1 <> mode b2.
Proof.
  cbv zeta. unfold cacheKey, Route.cacheKey. cbn [lat lng arriveByISO minutes mode]. split.
  - rewrite !append_assoc. reflexivity.
  - intros H. apply (f_equal String.length) in H.
    rewrite !length_append in H. cbn [String.length] in H. lia.
Qed.

End WithBuiltins.

Import Samples.

Lemma bad_request_iff_witness :
  acceptable text_latitude = false /\
  status (fst (fst (Route.POST no_fraction string parse_object (JsonObject text_latitude)
                      env 1000 net_ok one_entry))) = 400.
Proof.
  split; [reflexivity|].
  apply (proj1 (bad_request_iff no_fraction string parse_object (JsonObject text_latitude)
                  env 1000 net_ok one_entry)).
  right. exists text_latitude. split; reflexivity.
Defined.

Lemma outbound_call_iff_witness :
  validate (raw (dalhousie 30)) = Some (dalhousie 30) /\
  fresh (one_entry !! Route.cacheKey no_fraction (dalhousie 30)) 9000 = None /\
  snd (Route.POST no_fraction string parse_object (JsonObject (raw (dalhousie 30)))
         env 9000 net_ok one_entry) <> [].
Proof.
  assert (Hv : validate (raw (dalhousie 30)) = Some (dalhousie 30))
    by (vm_compute; reflexivity).
  assert (Hf : fresh (one_entry !! Route.cacheKey no_fraction (dalhousie 30)) 9000 = None)
    by (vm_compute; reflexivity).
  split; [exact Hv|]. split; [exact Hf|].
  apply (proj1 (outbound_call_iff no_fraction string parse_object
                  (JsonObject (raw (dalhousie 30))) env 9000 net_ok one_entry)).
  exists (raw (dalhousie 30)), (dalhousie 30).
  repeat split; try assumption; vm_compute; reflexivity.
Defined.

Lemma error_leaves_cache_witness :
  let run := Route.POST no_fraction string parse_object (JsonObject (raw (dalhousie 30)))
               env 9000 net_quota one_entry in
  status (fst (fst run)) <> 200 /\ snd (fst run) = one_entry.
Proof.
  assert (Hs : status (fst (fst (Route.POST no_fraction string parse_object
                                   (JsonObject (raw (dalhousie 30))) env 9000 net_quota
                                   one_entry))) <> 200)
    by (vm_compute; discriminate).
  split; [exact Hs|].
  exact (proj1 (proj2 (proj2 (error_leaves_cache no_fraction string parse_object
                                (JsonObject (raw (dalhousie 30))) env 9000 net_quota
                                one_entry))) Hs).
Defined.

Lemma repeat_within_ttl_witness :
  validate (raw (dalhousie 30)) = Some (dalhousie 30) /\
  2000 < 1000 + 600000 /\
  let cache1 := snd (fst (Route.POST no_fraction string parse_object
                            (JsonObject (raw (dalhousie 30))) env 1000 net_ok ∅)) in
  Route.POST no_fraction string parse_object (JsonObject (raw (dalhousie 30))) env 2000
    net_quota cache1 =
    ({| status := 200; body := DataBody (Parsed "{}") |}, cache1, []).
Proof.
  assert (Hv : validate (raw (dalhousie 30)) = Some (dalhousie 30))
    by (vm_compute; reflexivity).
  split; [exact Hv|]. split; [lia|].
  apply (repeat_within_ttl no_fraction string parse_object
           (raw (dalhousie 30)) (dalhousie 30) (raw (dalhousie 30)) (dalhousie 30)
           env 1000 2000 net_ok net_quota ∅ geo_response (Parsed "{}"));
    try exact Hv; try reflexivity; lia.
Defined.

Lemma refetch_after_ttl_witness :
  validate (raw (dalhousie 30)) = Some (dalhousie 30) /\
  1000 + 600000 <= 700000 /\
  let cache1 := snd (fst (Route.POST no_fraction string parse_object
                            (JsonObject (raw (dalhousie 30))) env 1000 net_ok ∅)) in
  snd (Route.POST no_fraction string parse_object (JsonObject (raw (dalhousie 30))) env
         700000 net_ok cache1) = [payload (dalhousie 30)].
Proof.
  assert (Hv : validate (raw (dalhousie 30)) = Some (dalhousie 30))
    by (vm_compute; reflexivity).
  split; [exact Hv|]. split; [lia|].
  apply (refetch_after_ttl no_fraction string parse_object
           (raw (dalhousie 30)) (dalhousie 30)
           env 1000 700000 net_ok net_ok ∅ geo_response (Parsed "{}")
           geo_response (Parsed "{}"));
    try exact Hv; try reflexivity; lia.
Defined.

End RouteMore.

(** ** More on the matcher *)
Module PageMore.
Import JSNumber JSString Page PageChecks NumberFacts.
Import RouteMore.

Lemma firstName_skip fields pre : forall ks,
  (forall k, In k pre -> usable fields k = None) ->
  firstName fields (pre ++ ks) = firstName fields ks.
Proof.
  induction pre as [|k pre IH]; intros ks Hpre; [reflexivity|].
  simpl. pose proof (Hpre k (or_introl eq_refl)) as Hk. unfold usable in Hk.
  rewrite <- (IH ks) by (intros k' Hk'; apply Hpre; right; exact Hk').
  destruct (fields !! k) as [[v|]|]; try reflexivity.
  destruct (truthy (trim v)); [discriminate|reflexivity].
Qed.

(** X9. The name is the trimmed value of the first key of the list, in the
    order of the list, that holds a string which is not blank; keys holding
    something else or a blank string are passed over; when there is no such
    key, or the properties are not an object, the name is "Unnamed area". *)
Theorem first_usable_key_names fields :
  (forall pre k post v,
      candidates = pre ++ k :: post ->
      (forall k', In k' pre -> usable fields k' = None) ->
      usable fields k = Some v ->
      pickCommunityName (Object fields) = v) /\
  ((forall k, In k candidates -> usable fields k = None) ->
   pickCommunityName (Object fields) = "Unnamed area") /\
  pickCommunityName NotAnObject = "Unnamed area".
Proof.
  split; [|split; [|reflexivity]].
  - intros pre k post v Hc Hpre Hk. unfold pickCommunityName. rewrite Hc.
    rewrite (firstName_skip fields pre _ Hpre). simpl.
    unfold usable in Hk. destruct (fields !! k) as [[w|]|]; try discriminate.
    destruct (truthy (trim w)); [|discriminate]. injection Hk as <-. reflexivity.
  - intros Hnone. unfold pickCommunityName.
    rewrite <- (app_nil_r candidates), (firstName_skip fields candidates [] Hnone).
    reflexivity.
Qed.

Lemma firstName_ext f1 f2 ks :
  (forall k, In k ks -> f1 !! k = f2 !! k) -> firstName f1 ks = firstName f2 ks.
Proof.
  induction ks as [|k ks IH]; intros H; [reflexivity|]. simpl.
  rewrite (H k (or_introl eq_refl)), IH by (intros k' Hk'; apply H; right; exact Hk').
  reflexivity.
Qed.

(** X10. Only the eight keys of the list matter: two property objects that
    agree on them give the same name, so adding, changing or removing any
    other property changes nothing. *)
Theorem other_properties_ignored f1 f2 :
  (forall k, In k candidates -> f1 !! k = f2 !! k) ->
  pickCommunityName (Object f1) = pickCommunityName (Object f2).
Proof. intros H. unfold pickCommunityName. rewrite (firstName_ext f1 f2 _ H). reflexivity. Qed.

(** *** [trim] gives a trimmed string *)

Lemma cons_append c (s t : string) :
  String.append (String c s) t = String c (String.append s t).
Proof. reflexivity. Qed.

Lemma append_nil_r (s : string) : String.append s EmptyString = s.
Proof.
  induction s as [|c s IH]; [reflexivity|]. rewrite cons_append, IH. reflexivity.
Qed.

Lemma rev_app_append s : forall t,
  String.rev_app s t = String.append (String.rev s) t.
Proof.
  unfold String.rev. induction s as [|c s IH]; intros t; [reflexivity|]. simpl.
  rewrite (IH (String c t)), (IH (String c EmptyString)), append_assoc. reflexivity.
Qed.

Lemma rev_cons c s :
  String.rev (String c s) = String.append (String.rev s) (String c EmptyString).
Proof. unfold String.rev at 1. simpl. apply rev_app_append. Qed.

Lemma rev_append s t :
  String.rev (String.append s t) = String.append (String.rev t) (String.rev s).
Proof.
  induction s as [|c s IH].
  - change (String.rev EmptyString) with EmptyString. rewrite append_nil_r. reflexivity.
  - rewrite cons_append, !rev_cons, IH, append_assoc. reflexivity.
Qed.

Lemma rev_rev s : String.rev (String.rev s) = s.
Proof.
  induction s as [|c s IH]; [reflexivity|].
  rewrite rev_cons, rev_append, IH. reflexivity.
Qed.

Lemma trimStart_headOK s : headOK (trimStart s).
Proof.
  induction s as [|c s IH]; simpl; [exact I|].
  destruct (is_white_space c) eqn:E; [exact IH|exact E].
Qed.

Lemma headOK_trimStart s : headOK s -> trimStart s = s.
Proof. destruct s as [|c s]; simpl; [reflexivity|]. intros ->. reflexivity. Qed.

Lemma trimStart_suffix s : exists w, s = String.append w (trimStart s).
Proof.
  induction s as [|c s [w IH]]; simpl; [exists EmptyString; reflexivity|].
  destruct (is_white_space c).
  - exists (String c w). rewrite cons_append, <- IH. reflexivity.
  - exists EmptyString. reflexivity.
Qed.

Lemma trimEnd_prefix s : exists w, s = String.append (trimEnd s) w.
Proof.
  unfold trimEnd. destruct (trimStart_suffix (String.rev s)) as [w Hw].
  exists (String.rev w). rewrite <- rev_append, <- Hw, rev_rev. reflexivity.
Qed.

Lemma trimEnd_headOK s : headOK s -> headOK (trimEnd s).
Proof.
  destruct (trimEnd_prefix s) as [w Hw]. intros H. rewrite Hw in H.
  destruct (trimEnd s) as [|c u]; [exact I|exact H].
Qed.

Lemma trim_trimmed s : trimmed (trim s).
Proof.
  unfold trimmed, trim.
  rewrite (headOK_trimStart (trimEnd (trimStart s)))
    by apply trimEnd_headOK, trimStart_headOK.
  unfold trimEnd at 1. unfold trimEnd at 1. rewrite rev_rev.
  rewrite (headOK_trimStart (trimStart _)) by apply trimStart_headOK.
  reflexivity.
Qed.

Lemma firstName_trimmed fields ks n :
  firstName fields ks = Some n -> n <> EmptyString /\ trimmed n.
Proof.
  induction ks as [|k ks IH]; simpl; [discriminate|].
  destruct (fields !! k) as [[v|]|]; auto.
  destruct (truthy (trim v)) eqn:E; auto.
  intros [= <-]. split; [|apply trim_trimmed].
  intros H. rewrite H in E. discriminate.
Qed.

(** X11. The name is never empty and never starts or ends with white
    space, whatever the properties are. *)
Theorem name_never_blank props :
  pickCommunityName props <> EmptyString /\ trimmed (pickCommunityName props).
Proof.
  destruct props as [|fields]; unfold pickCommunityName.
  - split; [discriminate|reflexivity].
  - destruct (firstName fields candidates) as [n|] eqn:E; cbn [default].
    + apply (firstName_trimmed fields candidates n E).
    + split; [discriminate|reflexivity].
Qed.

Lemma replaceAll_gone a b s : a <> b -> occurs a (replaceAll a b s) = false.
Proof.
  intros Hab. induction s as [|c s IH]; simpl; [reflexivity|]. rewrite IH.
  destruct (Ascii.eqb c a) eqn:E.
  - rewrite orb_false_r. apply Ascii.eqb_neq. congruence.
  - rewrite E. reflexivity.
Qed.

(** *** Sorted lists of names *)
Section SortedNames.
Variable le : string -> string -> Prop.


End SortedNames.

(** *** The result of a run *)
Section MatchingMore.
Variable Geometry : Type.
Variable Point : Type.
Variable exn : Type.
Variable turf_combine : FeatureCollection Geometry -> FeatureCollection Geometry.
Variable turf_bbox : Feature Geometry -> BBox.
Variable turf_centroid : Feature Geometry -> result exn Point.
Variable turf_booleanPointInPolygon : Point -> Feature Geometry -> result exn bool.
Variable localeCompare : string -> string -> Z.

Local Abbreviation matched :=
  (matched Geometry Point exn turf_bbox turf_centroid turf_booleanPointInPolygon).
Local Abbreviation candidateEvents :=
  (candidateEvents Geometry Point exn turf_bbox turf_centroid).
Local Abbreviation loopEvents := (loopEvents Geometry Point exn turf_bbox turf_centroid).
Local Abbreviation isoFeatureOf := (isoFeatureOf Geometry turf_combine).
Local Abbreviation matchedCandidates :=
  (matchedCandidates Geometry Point exn turf_combine turf_bbox turf_centroid
     turf_booleanPointInPolygon).
Local Abbreviation runEvents :=
  (runEvents Geometry Point exn turf_combine turf_bbox turf_centroid).
Local Abbreviation uniq := (uniq localeCompare).
Local Abbreviation computeWithin :=
  (computeWithin Geometry Point exn turf_combine turf_bbox turf_centroid
     turf_booleanPointInPolygon localeCompare).
Local Abbreviation computeWithin_run :=
  (PageFacts.computeWithin_run Geometry Point exn turf_combine turf_bbox turf_centroid
     turf_booleanPointInPolygon localeCompare).


Lemma matchedCandidates_length iso comm :
  (length (matchedCandidates iso (Some comm)) <= length (default [] (features comm)))%nat.
Proof.
  unfold matchedCandidates, Page.matchedCandidates.
  destruct iso as [iso|]; [|simpl; lia].
  destruct (Page.isoFeatureOf _ _ iso); [|simpl; lia].
  apply List.filter_length_le.
Qed.

(** What [uniq] returns, for hits that all carry the label [m]. *)
Lemma uniq_entries (hits : list CommunityHit) m :
  (forall h, In h hits -> mode h = m) ->
  (length (uniq hits) <= length hits)%nat /\
  List.NoDup (map name (uniq hits)) /\
  (forall n, In n (map name (uniq hits)) <-> In n (map name hits)) /\
  uniq hits = map (fun n => {| name := n; mode := m |}) (map name (uniq hits)).
Proof.
  intros Hmode. unfold uniq, Page.uniq.
  set (cmp := fun a b : CommunityHit => localeCompare (name a) (name b)).
  set (vs := Map_values (Map_new (map (fun h => (name h, h)) hits))).
  destruct (PageFacts.Map_new_hits hits) as (Hnd & Hnames & Hin).
  fold vs in Hnd, Hnames, Hin.
  pose proof (PageFacts.sort_perm cmp vs) as Hperm.
  assert (Hlen : (length vs <= length hits)%nat).
  { rewrite <- (length_map name vs), <- (length_map name hits).
    apply NoDup_incl_length; [exact Hnd|]. intros n. apply Hnames. }
  split; [rewrite Hperm; exact Hlen|]. split; [|split].
  - apply NoDup_ListNoDup. rewrite Hperm. apply NoDup_ListNoDup, Hnd.
  - intros n. rewrite Hperm. apply Hnames.
  - rewrite map_map. rewrite <- (map_id (sort cmp vs)) at 1.
    apply map_ext_in. intros h Hh. simpl.
    assert (Hv : In h vs)
      by (apply list_elem_of_In; rewrite <- Hperm; apply list_elem_of_In, Hh).
    rewrite <- (Hmode h (Hin h Hv)). destruct h; reflexivity.
Qed.

(** X12. The list returned is never longer than the candidate collection;
    every name in it is non-empty and trimmed; every entry carries the travel
    mode with each underscore replaced by a space, so no label shown contains
    an underscore. *)
Theorem within_entries_wellformed iso comm mode log :
  exists l log',
    computeWithin iso (Some comm) mode log = (Ok l, log') /\
    (length l <= length (default [] (features comm)))%nat /\
    forall h, In h l ->
      name h <> EmptyString /\ trimmed (name h) /\
      Page.mode h = replaceAll "_" " " mode /\
      occurs "_" (Page.mode h) = false.
Proof.
  rewrite computeWithin_run. eexists. eexists. split; [reflexivity|].
  set (hits := map (hit mode) (matchedCandidates iso (Some comm))).
  destruct (uniq_entries hits (replaceAll "_" " " mode)) as (Hlen & _ & Hnames & Heq).
  { intros h (f & <- & _)%in_map_iff. reflexivity. }
  split.
  - etransitivity; [exact Hlen|]. unfold hits. rewrite length_map.
    apply matchedCandidates_length.
  - intros h Hh. rewrite Heq in Hh. apply in_map_iff in Hh as (n & <- & Hn). simpl.
    apply Hnames in Hn. unfold hits in Hn. rewrite map_map in Hn.
    apply in_map_iff in Hn as (f & <- & _). simpl.
    destruct (name_never_blank (props f)) as [H1 H2].
    repeat split; auto. apply replaceAll_gone. discriminate.
Qed.


Lemma candidateEvents_count isoFeature isoBbox f :
  (length (candidateEvents isoFeature isoBbox f) <= 3)%nat /\
  (length (List.filter isCentroid (candidateEvents isoFeature isoBbox f)) <=
   if hasGeometry f then 1 else 0)%nat.
Proof.
  unfold candidateEvents, Page.candidateEvents, hasGeometry.
  destruct (geometry f); simpl; [|lia].
  destruct (bboxIntersects _ _); simpl; [|lia].
  destruct (turf_centroid f); simpl; lia.
Qed.

Lemma loopEvents_count isoFeature isoBbox fs :
  (length (loopEvents isoFeature isoBbox fs) <= 3 * length fs)%nat /\
  (length (List.filter isCentroid (loopEvents isoFeature isoBbox fs)) <=
   length (List.filter hasGeometry fs))%nat.
Proof.
  unfold loopEvents, Page.loopEvents.
  induction fs as [|f fs [IH1 IH2]]; simpl; [lia|].
  rewrite length_app, List.filter_app, length_app.
  destruct (candidateEvents_count isoFeature isoBbox f) as [H1 H2].
  fold candidateEvents. destruct (hasGeometry f); simpl; lia.
Qed.

(** X14. A run started with an empty log makes at most two library calls
    plus three per candidate, and calls [turf.centroid] at most once for each
    candidate that has a geometry. *)
Theorem library_calls_bounded iso comm mode :
  let log := snd (computeWithin iso (Some comm) mode []) in
  let cs := default [] (features comm) in
  (length log <= 2 + 3 * length cs)%nat /\
  (length (List.filter isCentroid log) <= length (List.filter hasGeometry cs))%nat.
Proof.
  cbv zeta. rewrite computeWithin_run. simpl.
  unfold runEvents, Page.runEvents. destruct iso as [iso|]; simpl; [|lia].
  destruct (Page.isoFeatureOf _ _ iso) as [isoFeature|]; simpl; [|lia].
  destruct (loopEvents_count isoFeature (turf_bbox isoFeature) (default [] (features comm)))
    as [H1 H2].
  fold loopEvents. lia.
Qed.

End MatchingMore.

Lemma other_properties_ignored_witness :
  let f := {[ "NAME" := PString "Halifax" ]} : gmap string propvalue in
  (forall k, In k candidates -> f !! k = <[ "OBJECTID" := POther ]> f !! k) /\
  pickCommunityName (Object f) = pickCommunityName (Object (<[ "OBJECTID" := POther ]> f)).
Proof.
  set (f := {[ "NAME" := PString "Halifax" ]} : gmap string propvalue).
  assert (H : forall k, In k candidates -> f !! k = <[ "OBJECTID" := POther ]> f !! k).
  { intros k Hk. rewrite lookup_insert_ne; [reflexivity|].
    intros <-. revert Hk. unfold candidates. simpl. intuition discriminate. }
  split; [exact H|]. exact (other_properties_ignored _ _ H).
Defined.

Lemma first_usable_key_names_witness :
  let fields := {[ "GSA_NAME" := PString "   ";
                   "COMMUNITY" := PString " Bedford ";
                   "NAME" := PString "Sackville" ]} : gmap string propvalue in
  candidates = ["GSA_NAME"] ++ "COMMUNITY" ::
                 ["COMMUNITY_NAME"; "community_name"; "NAME"; "name"; "label"; "LABEL"] /\
  usable fields "GSA_NAME" = None /\
  usable fields "COMMUNITY" = Some "Bedford" /\
  pickCommunityName (Object fields) = "Bedford".
Proof.
  set (fields := {[ "GSA_NAME" := PString "   ";
                    "COMMUNITY" := PString " Bedford ";
                    "NAME" := PString "Sackville" ]} : gmap string propvalue).
  assert (H1 : usable fields "GSA_NAME" = None) by (vm_compute; reflexivity).
  assert (H2 : usable fields "COMMUNITY" = Some "Bedford") by (vm_compute; reflexivity).
  split; [reflexivity|]. split; [exact H1|]. split; [exact H2|].
  apply (proj1 (first_usable_key_names fields) ["GSA_NAME"] "COMMUNITY"
           ["COMMUNITY_NAME"; "community_name"; "NAME"; "name"; "label"; "LABEL"]
           "Bedford" eq_refl); [|exact H2].
  intros k' [<-|[]]. exact H1.
Defined.

Import PageSamples.




(** Names that the comparison takes for equal keep the order in which
    their candidates come: "Halifax" and the same name with a soft
    hyphen, compared without regard to the hyphen, are listed in the order
    of the collection. *)
Example tied_names_follow_candidate_order :
  hyphenBlindCompare "Halifax" hali_fax_name = 0 /\
  (exists l log, hyphenBlindRun [halifax; hali_fax] "public_transport" = (Ok l, log) /\
                 map name l = ["Halifax"; hali_fax_name]) /\
  (exists l log, hyphenBlindRun [hali_fax; halifax] "public_transport" = (Ok l, log) /\
                 map name l = [hali_fax_name; "Halifax"]).
Proof.
  split; [reflexivity|].
  split; eexists; eexists; (split; [vm_compute; reflexivity|reflexivity]).
Qed.

End PageMore.

(** ** The bounds of a document *)
Module MapFacts.
Import JSNumber JSString Page MapView NumberFacts.

Lemma json_ind (P : json -> Prop) :
  P JNull -> (forall b, P (JBool b)) -> (forall x, P (JNumber x)) ->
  (forall s, P (JString s)) ->
  (forall l, List.Forall P l -> P (JArray l)) ->
  (forall fields, P (JObject fields)) ->
  forall v, P v.
Proof.
  intros HN HB HX HS HA HO. fix IH 1.
  intros [| b | x | s | l | fields];
    [exact HN|apply HB|apply HX|apply HS| |apply HO].
  apply HA. revert l. fix all 1. intros [|c l']; constructor; [apply IH|apply all].
Qed.

Lemma fold_flat_map {A} (f : A -> list (number * number)) (g : A -> BBox -> BBox) l :
  (forall a, In a l -> forall b, g a b = fold_left step (f a) b) ->
  forall b, fold_left (fun acc a => g a acc) l b = fold_left step (flat_map f l) b.
Proof.
  induction l as [|a l IH]; intros H b; simpl; [reflexivity|].
  rewrite fold_left_app, <- (H a (or_introl eq_refl)).
  apply IH. intros a' Ha'. apply H. right. exact Ha'.
Qed.

(** A walk extends the bounds by the positions it visits, in order. *)
Lemma walk_positions coords : forall b,
  walk coords b = fold_left step (positions coords) b.
Proof.
  induction coords as [|t|x|s|l IH|fields] using json_ind; intros b;
    try reflexivity.
  - destruct t; reflexivity.
  - destruct x; reflexivity.
  - destruct s as [|c [|c' s]]; reflexivity.
  - cbn [walk positions falsy].
    destruct (item 0 "0" (JArray l)) as [| |lng| | |]; try (
      apply fold_flat_map; rewrite List.Forall_forall in IH; exact IH).
    destruct (item 1 "1" (JArray l)) as [| |lat| | |]; try (
      apply fold_flat_map; rewrite List.Forall_forall in IH; exact IH).
    reflexivity.
  - cbn [walk positions falsy].
    destruct (item 0 "0" (JObject fields)) as [| |lng| | |]; try reflexivity.
    destruct (item 1 "1" (JObject fields)) as [| |lat| | |]; reflexivity.
Qed.

Lemma walked_visited fc :
  iterationThrows fc = false ->
  walked fc = Some (fold_left step (visited fc) start).
Proof.
  unfold iterationThrows, walked, visited.
  destruct (prop "type" fc) as [| | |ty| |];
    try (intros _; destruct (falsy (prop "coordinates" fc)) eqn:E;
         [destruct (prop "coordinates" fc); simpl in *; try rewrite E; try reflexivity;
          discriminate
         |rewrite walk_positions; reflexivity]).
  destruct (String.eqb ty "FeatureCollection") eqn:E1.
  { apply String.eqb_eq in E1 as ->.
    destruct (iterate (prop "features" fc)) as [fs|]; [|discriminate].
    intros _. f_equal. apply fold_flat_map. intros f _ b. apply walk_positions. }
  destruct (String.eqb ty "Feature") eqn:E2.
  { apply String.eqb_eq in E2 as ->. intros _. rewrite walk_positions. reflexivity. }
  apply String.eqb_neq in E1, E2.
  assert (Hother : forall (A : Type) (x y z : A),
             match ty with
             | "FeatureCollection" => x
             | "Feature" => y
             | _ => z
             end = z).
  { intros A x y z.
    repeat (match goal with
            | |- context [match ?t with EmptyString => _ | String _ _ => _ end] =>
                destruct t; try reflexivity
            | |- context [match ?c with Ascii _ _ _ _ _ _ _ _ => _ end] =>
                destruct c as [[] [] [] [] [] [] [] []]; try reflexivity
            end); congruence. }
  rewrite !Hother. intros _.
  destruct (falsy (prop "coordinates" fc)) eqn:E;
    [destruct (prop "coordinates" fc); simpl in *; try rewrite E; try reflexivity;
     discriminate
    |rewrite walk_positions; reflexivity].
Qed.

(** *** What the running bounds keep *)

Lemma Math_min_not_nan a b :
  is_nan (Math_min a b) = false -> is_nan a = false /\ is_nan b = false.
Proof.
  unfold Math_min. destruct (is_nan a), (is_nan b); simpl; auto; discriminate.
Qed.

Lemma Math_max_not_nan a b :
  is_nan (Math_max a b) = false -> is_nan a = false /\ is_nan b = false.
Proof.
  unfold Math_max. destruct (is_nan a), (is_nan b); simpl; auto; discriminate.
Qed.

Lemma noNaN4_inv b :
  noNaN4 b = true ->
  is_nan (minLng b) = false /\ is_nan (minLat b) = false /\
  is_nan (maxLng b) = false /\ is_nan (maxLat b) = false.
Proof.
  unfold noNaN4. rewrite !andb_true_iff, !negb_true_iff. tauto.
Qed.

Lemma isFinite4_noNaN4 b : isFinite4 b = true -> noNaN4 b = true.
Proof.
  unfold isFinite4, noNaN4. rewrite !andb_true_iff, !negb_true_iff.
  intros [[[H1 H2] H3] H4]. repeat split; apply RouteFacts.finite_not_nan; assumption.
Qed.

(** If the bounds are free of NaN after a run of positions, they were before,
    they only widened, and they contain every position of the run. *)
Lemma fold_step_contains ps : forall b,
  noNaN4 (fold_left step ps b) = true ->
  let b' := fold_left step ps b in
  noNaN4 b = true /\
  leb (minLng b') (minLng b) = true /\ leb (maxLng b) (maxLng b') = true /\
  leb (minLat b') (minLat b) = true /\ leb (maxLat b) (maxLat b') = true /\
  forall p, In p ps -> inBox (fst p) (snd p) b'.
Proof.
  induction ps as [|[x y] ps IH]; intros b H; cbn [fold_left] in *.
  - destruct (noNaN4_inv b H) as (H1 & H2 & H3 & H4).
    split; [exact H|]. repeat (split; [apply leb_refl; assumption|]). intros p [].
  - destruct (IH (step b (x, y)) H) as (Hn & L1 & L2 & L3 & L4 & Hin).
    set (b' := fold_left step ps (step b (x, y))) in *.
    destruct (noNaN4_inv _ Hn) as (N1 & N2 & N3 & N4). simpl in N1, N2, N3, N4.
    destruct (Math_min_not_nan _ _ N1) as [A1 X1].
    destruct (Math_min_not_nan _ _ N2) as [A2 Y1].
    destruct (Math_max_not_nan _ _ N3) as [A3 _].
    destruct (Math_max_not_nan _ _ N4) as [A4 _].
    destruct (Math_min_spec (minLng b) x A1 X1) as (_ & M1 & M1').
    destruct (Math_min_spec (minLat b) y A2 Y1) as (_ & M2 & M2').
    destruct (Math_max_spec (maxLng b) x A3 X1) as (_ & M3 & M3').
    destruct (Math_max_spec (maxLat b) y A4 Y1) as (_ & M4 & M4').
    simpl in L1, L2, L3, L4.
    split; [unfold noNaN4; rewrite A1, A2, A3, A4; reflexivity|].
    split; [eapply leb_trans; eassumption|].
    split; [eapply leb_trans; eassumption|].
    split; [eapply leb_trans; eassumption|].
    split; [eapply leb_trans; eassumption|].
    intros p [<-|Hp]; [|apply Hin, Hp]. simpl.
    repeat split; eapply leb_trans; eassumption.
Qed.

Lemma Math_min_finite a x :
  Number_isFinite x = true ->
  a = S754_infinity false \/ Number_isFinite a = true ->
  Number_isFinite (Math_min a x) = true.
Proof.
  intros Hx [->|Ha].
  - destruct x as [s|s| |s m e]; try discriminate; reflexivity.
  - destruct (Math_min_spec a x) as ([-> | ->] & _); auto using RouteFacts.finite_not_nan.
Qed.

Lemma Math_max_finite a x :
  Number_isFinite x = true ->
  a = S754_infinity true \/ Number_isFinite a = true ->
  Number_isFinite (Math_max a x) = true.
Proof.
  intros Hx [->|Ha].
  - destruct x as [s|s| |s m e]; try discriminate; reflexivity.
  - destruct (Math_max_spec a x) as ([-> | ->] & _); auto using RouteFacts.finite_not_nan.
Qed.

Lemma fold_step_finite ps : forall b,
  isFinite4 b = true ->
  (forall p, In p ps -> finitePosition p = true) ->
  isFinite4 (fold_left step ps b) = true.
Proof.
  induction ps as [|[x y] ps IH]; intros b Hb Hps; cbn [fold_left]; [exact Hb|].
  apply IH; [|intros p Hp; apply Hps; right; exact Hp].
  pose proof (Hps (x, y) (or_introl eq_refl)) as Hxy.
  unfold finitePosition in Hxy. simpl in Hxy. apply andb_true_iff in Hxy as [Hx Hy].
  unfold isFinite4 in *. rewrite !andb_true_iff in Hb. destruct Hb as [[[H1 H2] H3] H4].
  simpl. rewrite !Math_min_finite, !Math_max_finite; auto.
Qed.

Lemma step_start_finite x y :
  finitePosition (x, y) = true -> isFinite4 (step start (x, y)) = true.
Proof.
  unfold finitePosition. simpl. intros [Hx Hy]%andb_true_iff.
  unfold isFinite4. simpl. rewrite !Math_min_finite, !Math_max_finite; auto.
Qed.

Lemma finite_inBox x y b :
  isFinite4 b = true -> inBox x y b ->
  finitePosition (x, y) = true.
Proof.
  unfold isFinite4, inBox, finitePosition, leb, SFleb. simpl.
  rewrite !andb_true_iff. intros [[[H1 H2] H3] H4] (I1 & I2 & I3 & I4).
  split.
  - destruct x as [s|s| |s m e]; try reflexivity.
    + destruct s; [destruct (minLng b)|destruct (maxLng b)]; simpl in *;
        try discriminate; try (destruct s; discriminate).
    + destruct (minLng b); discriminate.
  - destruct y as [s|s| |s m e]; try reflexivity.
    + destruct s; [destruct (minLat b)|destruct (maxLat b)]; simpl in *;
        try discriminate; try (destruct s; discriminate).
    + destruct (minLat b); discriminate.
Qed.

Lemma bounds_returned fc r :
  hasBbox fc = false ->
  bboxFromGeoJSON fc = Some r ->
  iterationThrows fc = false /\
  exists b,
    r = [JNumber (minLng b); JNumber (minLat b); JNumber (maxLng b); JNumber (maxLat b)] /\
    isFinite4 b = true /\ visited fc <> [] /\
    forall p, In p (visited fc) -> inBox (fst p) (snd p) b.
Proof.
  unfold hasBbox, bboxFromGeoJSON. intros Hno H.
  assert (Hw : match walked fc with
               | Some b => if isFinite4 b
                           then Some [JNumber (minLng b); JNumber (minLat b);
                                      JNumber (maxLng b); JNumber (maxLat b)]
                           else None
               | None => None
               end = Some r).
  { destruct (prop "bbox" fc) as [| | | |[|a [|b0 [|c [|d [|e l]]]]]|]; try exact H.
    discriminate. }
  clear H Hno.
  destruct (walked fc) as [b|] eqn:Hwalk; [|discriminate].
  destruct (isFinite4 b) eqn:Hfin; [|discriminate]. injection Hw as <-.
  assert (Hthrow : iterationThrows fc = false).
  { unfold iterationThrows. unfold walked in Hwalk.
    destruct (prop "type" fc) as [| | |ty| |]; try reflexivity.
    repeat (match goal with
            | |- context [match ?t with EmptyString => _ | String _ _ => _ end] =>
                destruct t; try reflexivity
            | |- context [match ?c with Ascii _ _ _ _ _ _ _ _ => _ end] =>
                destruct c as [[] [] [] [] [] [] [] []]; try reflexivity
            end).
    destruct (iterate (prop "features" fc)); [reflexivity|discriminate]. }
  split; [exact Hthrow|].
  rewrite (walked_visited fc Hthrow) in Hwalk. injection Hwalk as <-.
  set (ps := visited fc) in *.
  destruct (fold_step_contains ps start (isFinite4_noNaN4 _ Hfin))
    as (_ & _ & _ & _ & _ & Hin).
  exists (fold_left step ps start). split; [reflexivity|]. split; [exact Hfin|].
  split; [|exact Hin]. intros E. rewrite E in Hfin. discriminate.
Qed.

(** X15. When the document has no four-value [bbox] member and
    [bboxFromGeoJSON] returns bounds, these are four finite numbers, with the
    minimum at most the maximum on each axis, and every position the walk
    visits lies within them. *)
Theorem bounds_contain_positions fc r :
  hasBbox fc = false ->
  bboxFromGeoJSON fc = Some r ->
  exists b,
    r = [JNumber (minLng b); JNumber (minLat b); JNumber (maxLng b); JNumber (maxLat b)] /\
    isFinite4 b = true /\
    leb (minLng b) (maxLng b) = true /\ leb (minLat b) (maxLat b) = true /\
    forall p, In p (visited fc) -> inBox (fst p) (snd p) b.
Proof.
  intros Hno H. destruct (bounds_returned fc r Hno H) as (_ & b & -> & Hfin & Hne & Hin).
  exists b. split; [reflexivity|]. split; [exact Hfin|].
  destruct (visited fc) as [|[x y] ps]; [congruence|].
  destruct (Hin (x, y) (or_introl eq_refl)) as (I1 & I2 & I3 & I4).
  split; [eapply leb_trans; eassumption|].
  split; [eapply leb_trans; eassumption|exact Hin].
Qed.

(** X16. Without a four-value [bbox] member, [bboxFromGeoJSON] returns
    bounds exactly when iterating the features does not throw, the walk
    visits at least one position, and every position visited has two finite
    coordinates; in every other case it returns [null]. *)
Theorem bounds_exist_iff fc :
  hasBbox fc = false ->
  (bboxFromGeoJSON fc <> None <->
   iterationThrows fc = false /\ visited fc <> [] /\
   forall p, In p (visited fc) -> finitePosition p = true).
Proof.
  intros Hno. split.
  - destruct (bboxFromGeoJSON fc) as [r|] eqn:H; [intros _|congruence].
    destruct (bounds_returned fc r Hno H) as (Hthrow & b & _ & Hfin & Hne & Hin).
    split; [exact Hthrow|]. split; [exact Hne|].
    intros [x y] Hp. apply (finite_inBox x y b Hfin), (Hin (x, y) Hp).
  - intros (Hthrow & Hne & Hfin).
    unfold bboxFromGeoJSON. unfold hasBbox in Hno.
    rewrite (walked_visited fc Hthrow).
    destruct (visited fc) as [|[x y] ps]; [congruence|]. cbn [fold_left].
    rewrite fold_step_finite;
      [|apply step_start_finite, Hfin; left; reflexivity
       |intros p Hp; apply Hfin; right; exact Hp].
    destruct (prop "bbox" fc) as [| | | |[|a [|b0 [|c [|d [|e l]]]]]|]; discriminate.
Qed.

Lemma bounds_contain_positions_witness :
  hasBbox twoSquares = false /\
  exists r b,
    bboxFromGeoJSON twoSquares = Some r /\
    r = [JNumber (minLng b); JNumber (minLat b); JNumber (maxLng b); JNumber (maxLat b)] /\
    leb (minLng b) (maxLng b) = true.
Proof.
  split; [reflexivity|].
  destruct (bboxFromGeoJSON twoSquares) as [r|] eqn:E; [|vm_compute in E; discriminate].
  destruct (bounds_contain_positions twoSquares r eq_refl E) as (b & Hr & _ & Hle & _).
  exists r, b. split; [reflexivity|]. split; [exact Hr|exact Hle].
Defined.

Lemma bounds_exist_iff_witness :
  let empty := JObject [("type", JString "FeatureCollection"); ("features", JArray [])] in
  hasBbox empty = false /\ visited empty = [] /\ bboxFromGeoJSON empty = None.
Proof.
  set (empty := JObject [("type", JString "FeatureCollection"); ("features", JArray [])]).
  split; [reflexivity|]. split; [reflexivity|].
  destruct (bboxFromGeoJSON empty) as [r|] eqn:E; [|reflexivity].
  destruct (proj1 (bounds_exist_iff empty eq_refl)) as (_ & Hne & _).
  - rewrite E. discriminate.
  - exfalso. apply Hne. reflexivity.
Defined.

End MapFacts.

(** ** The arrival time *)
Module ArriveFacts.
Import JSNumber JSString Arrive.

Section Dates.
Variable Date : Type.
Variable getDay : Date -> Z.
Variable getFullYear : Date -> Z.
Variable getMonth : Date -> Z.
Variable getDate : Date -> Z.
Variable nextDay : Date -> Date.
Variable Number_of : string -> number.
Variable toString_other : number -> string.
Hypothesis getDay_range : forall d, 0 <= getDay d <= 6.
Hypothesis getDay_nextDay : forall d, getDay (nextDay d) = (getDay d + 1) mod 7.

Local Abbreviation skipWeekend := (skipWeekend Date getDay nextDay).
Local Abbreviation toArriveByISO :=
  (toArriveByISO Date getDay getFullYear getMonth getDate nextDay Number_of toString_other).

Lemma skipWeekend_weekday fuel d :
  getDay d <> 0 -> getDay d <> 6 -> skipWeekend fuel d = Some d.
Proof.
  intros H0%Z.eqb_neq H6%Z.eqb_neq.
  destruct fuel; cbn [Arrive.skipWeekend]; rewrite H0, H6; reflexivity.
Qed.

Lemma skipWeekend_step fuel d :
  getDay d = 0 \/ getDay d = 6 ->
  skipWeekend (S fuel) d = skipWeekend fuel (nextDay d).
Proof.
  intros H. cbn [Arrive.skipWeekend].
  destruct H as [H|H]; rewrite H; reflexivity.
Qed.

Lemma skipWeekend_two fuel d :
  (2 <= fuel)%nat ->
  skipWeekend fuel d =
    Some (if getDay d =? 6 then nextDay (nextDay d)
          else if getDay d =? 0 then nextDay d
          else d).
Proof.
  intros Hfuel. destruct fuel as [|[|fuel]]; try lia.
  pose proof (getDay_nextDay d) as H1.
  pose proof (getDay_nextDay (nextDay d)) as H2.
  destruct (getDay d =? 6) eqn:E6.
  - apply Z.eqb_eq in E6. rewrite E6 in H1. change ((6 + 1) mod 7) with 0 in H1.
    rewrite H1 in H2. change ((0 + 1) mod 7) with 1 in H2.
    rewrite skipWeekend_step by auto. rewrite skipWeekend_step by auto.
    apply skipWeekend_weekday; lia.
  - destruct (getDay d =? 0) eqn:E0.
    + apply Z.eqb_eq in E0. rewrite E0 in H1. change ((0 + 1) mod 7) with 1 in H1.
      rewrite skipWeekend_step by auto. apply skipWeekend_weekday; lia.
    + apply Z.eqb_neq in E6, E0. apply skipWeekend_weekday; assumption.
Qed.

(** X17. With room for two turns the weekend loop always ends, so a string
    is returned; the date printed is a day from Monday to Friday: the
    current day when that is one, the next day on a Sunday, two days on from
    a Saturday. *)
Theorem arrival_on_a_weekday fuel now timeHHMM :
  (2 <= fuel)%nat ->
  exists d,
    skipWeekend fuel now = Some d /\
    1 <= getDay d <= 5 /\
    (1 <= getDay now <= 5 -> d = now) /\
    (getDay now = 0 -> d = nextDay now) /\
    (getDay now = 6 -> d = nextDay (nextDay now)) /\
    exists iso, toArriveByISO fuel now timeHHMM = Some iso.
Proof.
  intros Hfuel.
  pose proof (getDay_range now) as Hr.
  pose proof (getDay_nextDay now) as H1.
  pose proof (getDay_nextDay (nextDay now)) as H2.
  eexists. split; [apply skipWeekend_two, Hfuel|].
  destruct (getDay now =? 6) eqn:E6; [|destruct (getDay now =? 0) eqn:E0].
  - apply Z.eqb_eq in E6. rewrite E6 in H1. change ((6 + 1) mod 7) with 0 in H1.
    rewrite H1 in H2. change ((0 + 1) mod 7) with 1 in H2.
    repeat split; try lia.
    unfold toArriveByISO, Arrive.toArriveByISO. rewrite (skipWeekend_two _ _ Hfuel).
    eauto.
  - apply Z.eqb_eq in E0. rewrite E0 in H1. change ((0 + 1) mod 7) with 1 in H1.
    repeat split; try lia.
    unfold toArriveByISO, Arrive.toArriveByISO. rewrite (skipWeekend_two _ _ Hfuel).
    eauto.
  - apply Z.eqb_neq in E6, E0.
    repeat split; try lia.
    unfold toArriveByISO, Arrive.toArriveByISO. rewrite (skipWeekend_two _ _ Hfuel).
    eauto.
Qed.

End Dates.

Lemma dayOfWeek_range d : 0 <= dayOfWeek d <= 6.
Proof. unfold dayOfWeek. pose proof (Z.mod_pos_bound (d + 4) 7). lia. Qed.

Lemma dayOfWeek_succ d : dayOfWeek (d + 1) = (dayOfWeek d + 1) mod 7.
Proof.
  unfold dayOfWeek. rewrite Zplus_mod_idemp_l. f_equal. lia.
Qed.

Lemma arrival_on_a_weekday_witness :
  (2 <= 2)%nat /\
  exists d, Arrive.skipWeekend Z dayOfWeek (fun d => d + 1) 2 20457 = Some d /\
            1 <= dayOfWeek d <= 5.
Proof.
  split; [lia|].
  destruct (arrival_on_a_weekday Z dayOfWeek (fun _ => 2026) (fun _ => 0) (fun _ => 5)
              (fun d => d + 1) (fun _ => of_Z 8) (fun _ => EmptyString)
              dayOfWeek_range dayOfWeek_succ 2 20457 "08:30" ltac:(lia))
    as (d & H1 & H2 & _).
  exists d. split; [exact H1|exact H2].
Defined.

End ArriveFacts.

(** ** The key tells rounding cells apart *)
Module KeyFacts.
Import JSNumber JSString Route RouteChecks NumberFacts.
Import RouteMore PageMore.

(** *** Strings *)

Lemma allChars_append P s t :
  allChars P (String.append s t) = allChars P s && allChars P t.
Proof.
  induction s as [|c s IH]; [reflexivity|].
  rewrite cons_append. simpl. rewrite IH, andb_assoc. reflexivity.
Qed.

Lemma allChars_substring P s : forall n m,
  allChars P s = true -> allChars P (String.substring n m s) = true.
Proof.
  induction s as [|c s IH]; intros n m H.
  - destruct n, m; reflexivity.
  - simpl in H. apply andb_true_iff in H as [Hc Hs].
    destruct n as [|n]; simpl.
    + destruct m as [|m]; [reflexivity|]. simpl. rewrite Hc. apply (IH 0%nat m Hs).
    + apply IH, Hs.
Qed.

Lemma length_substring s : forall n m,
  (n + m <= String.length s)%nat -> String.length (String.substring n m s) = m.
Proof.
  induction s as [|c s IH]; intros n m H; simpl in H.
  - destruct n, m; simpl; lia.
  - destruct n as [|n]; simpl.
    + destruct m as [|m]; [reflexivity|]. simpl. rewrite (IH 0%nat m); lia.
    + apply IH. lia.
Qed.

Lemma substring_split s : forall n,
  (n <= String.length s)%nat ->
  String.append (String.substring 0 n s) (String.substring n (String.length s - n) s) = s.
Proof.
  induction s as [|c s IH]; intros n H; simpl in H.
  - destruct n; [reflexivity|lia].
  - destruct n as [|n].
    + simpl. change (String.append EmptyString ?x) with x. f_equal.
      generalize (IH 0%nat ltac:(lia)). rewrite Nat.sub_0_r.
      destruct s; simpl; intros E; exact E.
    + simpl. rewrite cons_append. f_equal. apply IH. lia.
Qed.

Lemma allChars_occurs P c s :
  P c = false -> allChars P s = true -> PageChecks.occurs c s = false.
Proof.
  intros Hc. induction s as [|c' s IH]; simpl; [reflexivity|].
  intros [Hc' Hs]%andb_true_iff. rewrite (IH Hs), orb_false_r.
  apply Ascii.eqb_neq. intros ->. congruence.
Qed.

(** Two strings cut at the first occurrence of a separator agree part by part. *)
Lemma split_at c s1 : forall s2 r1 r2,
  PageChecks.occurs c s1 = false -> PageChecks.occurs c s2 = false ->
  String.append s1 (String c r1) = String.append s2 (String c r2) ->
  s1 = s2 /\ r1 = r2.
Proof.
  induction s1 as [|a s1 IH]; intros [|b s2] r1 r2 H1 H2 E.
  - injection E as ->. auto.
  - rewrite cons_append in E. injection E as <- _. simpl in H2.
    rewrite Ascii.eqb_refl in H2. discriminate.
  - rewrite cons_append in E. injection E as -> _. simpl in H1.
    rewrite Ascii.eqb_refl in H1. discriminate.
  - rewrite !cons_append in E. injection E as -> E. simpl in H1, H2.
    apply orb_false_iff in H1 as [_ H1]. apply orb_false_iff in H2 as [_ H2].
    destruct (IH s2 r1 r2 H1 H2 E) as [-> ->]. auto.
Qed.

(** *** Digits *)

Lemma allChars_zeros n : allChars isDigit (zeros n) = true.
Proof. induction n as [|n IH]; [reflexivity|]. simpl. exact IH. Qed.

Lemma length_zeros n : String.length (zeros n) = n.
Proof. induction n as [|n IH]; [reflexivity|]. simpl. rewrite IH. reflexivity. Qed.

Lemma allChars_string_of_uint d : allChars isDigit (NilEmpty.string_of_uint d) = true.
Proof. induction d; simpl; auto. Qed.

Lemma digits_NilEmpty n : digits n = NilEmpty.string_of_uint (N.to_uint n).
Proof.
  unfold digits, NilZero.string_of_uint. destruct n as [|p]; [reflexivity|].
  simpl. pose proof (DecimalPos.Unsigned.to_uint_nonnil p) as H.
  destruct (Pos.to_uint p); [congruence|reflexivity..].
Qed.

Lemma allChars_digits n : allChars isDigit (digits n) = true.
Proof. rewrite digits_NilEmpty. apply allChars_string_of_uint. Qed.

Lemma digits_nonempty n : digits n <> EmptyString.
Proof.
  rewrite digits_NilEmpty. destruct n as [|p]; [discriminate|]. simpl.
  pose proof (DecimalPos.Unsigned.to_uint_nonnil p) as H.
  destruct (Pos.to_uint p); [congruence|discriminate..].
Qed.

Lemma uint_of_zeros j d :
  NilEmpty.uint_of_string (String.append (zeros j) (NilEmpty.string_of_uint d)) =
    Some (Nat.iter j Decimal.D0 d).
Proof.
  induction j as [|j IH]; [apply NilEmpty.usu|].
  change (zeros (S j)) with (String "0" (zeros j)). rewrite cons_append.
  cbn [NilEmpty.uint_of_string]. rewrite IH. reflexivity.
Qed.

Lemma of_uint_zeros j d : N.of_uint (Nat.iter j Decimal.D0 d) = N.of_uint d.
Proof. induction j as [|j IH]; [reflexivity|]. simpl. exact IH. Qed.

(** Reading back the digits of a number, padded or not, gives the number. *)
Lemma readN_padded j n : readN (String.append (zeros j) (digits n)) = Some n.
Proof.
  unfold readN. rewrite digits_NilEmpty, uint_of_zeros. simpl.
  rewrite of_uint_zeros, DecimalN.Unsigned.of_to. reflexivity.
Qed.

(** *** The shape of [toFixed(5)] *)

Lemma isDigit_isCoordChar s : allChars isDigit s = true -> allChars isCoordChar s = true.
Proof.
  induction s as [|c s IH]; [reflexivity|]. cbn [allChars].
  intros [Hc Hs]%andb_true_iff. rewrite (IH Hs). unfold isCoordChar. rewrite Hc.
  reflexivity.
Qed.

Lemma fixed_digits_parts n :
  exists A F j,
    fixed_digits n = String.append A (String "." F) /\
    A <> EmptyString /\ allChars isDigit A = true /\ allChars isDigit F = true /\
    String.append A F = String.append (zeros j) (digits (Z.to_N n)).
Proof.
  unfold fixed_digits.
  set (m := digits (Z.to_N n)).
  set (m' := if (String.length m <=? 5)%nat
             then String.append (zeros (6 - String.length m)) m else m).
  assert (Hm' : exists j, m' = String.append (zeros j) m /\ (6 <= String.length m')%nat).
  { unfold m'. destruct (String.length m <=? 5)%nat eqn:E.
    - apply Nat.leb_le in E. exists (6 - String.length m)%nat. split; [reflexivity|].
      rewrite length_append, length_zeros. lia.
    - apply Nat.leb_gt in E. exists 0%nat. split; [reflexivity|]. lia. }
  destruct Hm' as (j & Hj & Hlen).
  assert (Hd : allChars isDigit m' = true).
  { rewrite Hj, allChars_append, allChars_zeros. apply allChars_digits. }
  exists (String.substring 0 (String.length m' - 5) m'),
         (String.substring (String.length m' - 5) 5 m'), j.
  split; [reflexivity|]. split; [|split; [|split]].
  - intros E. apply (f_equal String.length) in E.
    rewrite length_substring in E by lia. simpl in E. lia.
  - apply allChars_substring, Hd.
  - apply allChars_substring, Hd.
  - rewrite <- Hj.
    pose proof (substring_split m' (String.length m' - 5) ltac:(lia)) as H.
    replace (String.length m' - (String.length m' - 5))%nat with 5%nat in H by lia.
    exact H.
Qed.

Lemma fixed_digits_inj n1 n2 :
  0 <= n1 -> 0 <= n2 -> fixed_digits n1 = fixed_digits n2 -> n1 = n2.
Proof.
  intros H1 H2 E.
  destruct (fixed_digits_parts n1) as (A1 & F1 & j1 & E1 & _ & D1 & _ & P1).
  destruct (fixed_digits_parts n2) as (A2 & F2 & j2 & E2 & _ & D2 & _ & P2).
  rewrite E1, E2 in E.
  apply split_at in E as [-> ->];
    try (eapply allChars_occurs; [|eassumption]; reflexivity).
  rewrite P1 in P2. apply (f_equal readN) in P2. rewrite !readN_padded in P2.
  injection P2 as P2. apply (f_equal Z.of_N) in P2. rewrite !Z2N.id in P2; assumption.
Qed.

Lemma fixed_digits_chars n : allChars isCoordChar (fixed_digits n) = true.
Proof.
  destruct (fixed_digits_parts n) as (A & F & j & -> & _ & DA & DF & _).
  rewrite allChars_append. simpl.
  rewrite (isDigit_isCoordChar A DA), (isDigit_isCoordChar F DF). reflexivity.
Qed.

Lemma fixed_digits_head n : exists c r, fixed_digits n = String c r /\ isDigit c = true.
Proof.
  destruct (fixed_digits_parts n) as (A & F & j & -> & Hne & DA & _ & _).
  destruct A as [|c A]; [congruence|]. simpl in DA. apply andb_true_iff in DA as [Hc _].
  exists c, (String.append A (String "." F)). split; [reflexivity|exact Hc].
Qed.

Lemma scaled_round_nonneg m e : 0 <= scaled_round m e.
Proof.
  unfold scaled_round. destruct (0 <=? e) eqn:E.
  - apply Z.leb_le in E. pose proof (RouteFacts.pow2_pos e E). nia.
  - apply Z.leb_gt in E.
    pose proof (RouteFacts.pow2_pos (- e) ltac:(lia)).
    pose proof (RouteFacts.pow2_pos (1 - e) ltac:(lia)).
    apply Z.div_pos; lia.
Qed.

(** Every finite number below 10^21 in magnitude lies in the cell of the
    integer [toFixed(5)] prints for it. *)
Lemma rounds_to_cell x :
  Number_isFinite x = true ->
  (magnitude x < inject_Z (10 ^ 21))%Q ->
  rounds_to x (cell x).
Proof.
  intros Hfin Hbig. unfold rounds_to. split; [exact Hfin|]. split; [exact Hbig|].
  destruct x as [s|s| |s m e]; try discriminate.
  - unfold Qle, Qlt. simpl. lia.
  - unfold cell, scaled_round, magnitude in *. destruct (0 <=? e) eqn:He.
    + set (M := Zpos m * 2 ^ e) in *. unfold Qle, Qlt in *. simpl in *. lia.
    + apply Z.leb_gt in He.
      assert (HD : 0 < 2 ^ (- e)) by (apply RouteFacts.pow2_pos; lia).
      assert (HP : Zpos (Z.to_pos (2 ^ (- e))) = 2 ^ (- e)) by (apply Z2Pos.id; exact HD).
      assert (H2 : 2 ^ (1 - e) = 2 * 2 ^ (- e)).
      { replace (1 - e) with (Z.succ (- e)) by lia. apply Z.pow_succ_r. lia. }
      rewrite H2. set (D := 2 ^ (- e)) in *.
      set (N := 2 * (Zpos m * 10 ^ 5) + D).
      pose proof (Z.mul_div_le N (2 * D) ltac:(lia)) as Hlo.
      pose proof (Z.mul_succ_div_gt N (2 * D) ltac:(lia)) as Hhi.
      set (k := N / (2 * D)) in *.
      unfold Qle, Qlt. simpl. rewrite ?Pos2Z.inj_mul, ?HP. fold D.
      unfold N in *. change (10 ^ 5) with 100000 in *. split; nia.
Qed.

Section WithBuiltins.
Variable toString_other : number -> string.

Local Abbreviation toFixed5 := (toFixed5 toString_other).
Local Abbreviation cacheKey := (cacheKey toString_other).

Lemma toFixed5_form x :
  Number_isFinite x = true ->
  (magnitude x < inject_Z (10 ^ 21))%Q ->
  toFixed5 x =
    String.append (if below_zero x then "-" else "") (fixed_digits (cell x)) /\
  0 <= cell x.
Proof.
  intros Hfin Hbig. split.
  - apply (RouteFacts.toFixed5_cell toString_other), rounds_to_cell; assumption.
  - destruct x; simpl; try lia. apply scaled_round_nonneg.
Qed.

Lemma toFixed5_chars x :
  Number_isFinite x = true ->
  (magnitude x < inject_Z (10 ^ 21))%Q ->
  allChars isCoordChar (toFixed5 x) = true.
Proof.
  intros Hfin Hbig. rewrite (proj1 (toFixed5_form x Hfin Hbig)).
  rewrite allChars_append, fixed_digits_chars. destruct (below_zero x); reflexivity.
Qed.

Lemma toFixed5_inj x y :
  Number_isFinite x = true -> (magnitude x < inject_Z (10 ^ 21))%Q ->
  Number_isFinite y = true -> (magnitude y < inject_Z (10 ^ 21))%Q ->
  toFixed5 x = toFixed5 y ->
  below_zero x = below_zero y /\ cell x = cell y.
Proof.
  intros Fx Bx Fy By E.
  destruct (toFixed5_form x Fx Bx) as [Ex Px], (toFixed5_form y Fy By) as [Ey Py].
  rewrite Ex, Ey in E.
  destruct (fixed_digits_head (cell x)) as (cx & rx & Hx & Dx).
  destruct (fixed_digits_head (cell y)) as (cy & ry & Hy & Dy).
  destruct (below_zero x), (below_zero y).
  - change (String "-" (fixed_digits (cell x)) = String "-" (fixed_digits (cell y))) in E.
    injection E as E. split; [reflexivity|]. apply fixed_digits_inj; assumption.
  - change (String "-" (fixed_digits (cell x)) = fixed_digits (cell y)) in E.
    rewrite Hy in E. injection E as <- _. discriminate.
  - change (fixed_digits (cell x) = String "-" (fixed_digits (cell y))) in E.
    rewrite Hx in E. injection E as -> _. discriminate.
  - change (fixed_digits (cell x) = fixed_digits (cell y)) in E.
    split; [reflexivity|]. apply fixed_digits_inj; assumption.
Qed.

(** X8. Two requests with finite coordinates below 10^21 in magnitude that
    have the same cache key have latitudes in the same rounding cell and
    longitudes in the same rounding cell: one cache entry never serves
    destinations that round differently at five decimals. *)
Theorem same_key_same_cell b1 b2 :
  Number_isFinite (lat b1) = true -> (magnitude (lat b1) < inject_Z (10 ^ 21))%Q ->
  Number_isFinite (lng b1) = true -> (magnitude (lng b1) < inject_Z (10 ^ 21))%Q ->
  Number_isFinite (lat b2) = true -> (magnitude (lat b2) < inject_Z (10 ^ 21))%Q ->
  Number_isFinite (lng b2) = true -> (magnitude (lng b2) < inject_Z (10 ^ 21))%Q ->
  cacheKey b1 = cacheKey b2 ->
  same_rounding (lat b1) (lat b2) /\ same_rounding (lng b1) (lng b2).
Proof.
  intros Fa1 Ba1 Fg1 Bg1 Fa2 Ba2 Fg2 Bg2 E.
  unfold cacheKey, Route.cacheKey in E.
  change (String.append "," ?x) with (String "," x) in E.
  apply split_at in E as [Elat E];
    try (eapply allChars_occurs; [|apply toFixed5_chars; assumption]; reflexivity).
  change (String.append "|" ?x) with (String "|" x) in E.
  apply split_at in E as [Elng _];
    try (eapply allChars_occurs; [|apply toFixed5_chars; assumption]; reflexivity).
  destruct (toFixed5_inj _ _ Fa1 Ba1 Fa2 Ba2 Elat) as [S1 C1].
  destruct (toFixed5_inj _ _ Fg1 Bg1 Fg2 Bg2 Elng) as [S2 C2].
  split.
  - split; [exact S1|]. exists (cell (lat b1)).
    split; [apply rounds_to_cell; assumption|].
    rewrite C1. apply rounds_to_cell; assumption.
  - split; [exact S2|]. exists (cell (lng b1)).
    split; [apply rounds_to_cell; assumption|].
    rewrite C2. apply rounds_to_cell; assumption.
Qed.

End WithBuiltins.

Import Samples.

Lemma same_key_same_cell_witness :
  Route.cacheKey no_fraction (at_latitude click_c) =
    Route.cacheKey no_fraction (at_latitude click_d) /\
  same_rounding click_c click_d.
Proof.
  assert (E : Route.cacheKey no_fraction (at_latitude click_c) =
              Route.cacheKey no_fraction (at_latitude click_d))
    by (vm_compute; reflexivity).
  split; [exact E|].
  refine (proj1 (same_key_same_cell no_fraction (at_latitude click_c) (at_latitude click_d)
                   _ _ _ _ _ _ _ _ E)); vm_compute; reflexivity.
Defined.

End KeyFacts.
